(** * Trivia API: a shallow embedding of [backend/flaskr/__init__.py]

    The request handlers of the trivia backend are embedded as functions in
    a small state-and-exception monad over the database.  The handlers are
    translated from [flaskr/__init__.py]; what they call in the framework
    (routing, error handlers), in the object-relational mapper (queries,
    pagination, the session) and in [models.py] is modelled next to them,
    each with a comment saying where its behaviour is taken from. *)

From Stdlib Require Import ZArith String Ascii List Sorted Permutation Lia.
From stdpp Require Import base option list sorting gmap strings.

Local Open Scope string_scope.
Local Open Scope Z_scope.

(** ** Data model *)

(** The two mapped classes imported from [models.py]: their columns are the
    ones of the data model (section 3 of the specification). *)

Module Category.
Record t : Type := mk { id : Z; type : string }.
End Category.

Module Question.
Record t : Type := mk {
  id : Z;
  question : string;
  answer : string;
  category : Z;
  difficulty : Z
}.
End Question.

(** The serialised form of a question, a dictionary with five fixed keys. *)
Record question_dict : Type := QuestionDict {
  dict_id : Z;
  dict_question : string;
  dict_answer : string;
  dict_category : Z;
  dict_difficulty : Z
}.

(** Modelled from the spec: [Question.format] of [models.py], which is not
    among the sources.  Section 4.8: every question is serialised
    to the record [{id, question, answer, category, difficulty}]. *)
Definition format (q : Question.t) : question_dict :=
  {| dict_id := Question.id q;
     dict_question := Question.question q;
     dict_answer := Question.answer q;
     dict_category := Question.category q;
     dict_difficulty := Question.difficulty q |}.

(** ** The database and its session *)

Record Tables : Type := mkTables {
  questions : list Question.t;
  categories : list Category.t
}.

(** [committed] is what the store holds; [pending] is the open transaction
    of the request's session, if any: the tables as the session sees them,
    with its writes not yet committed.  [questions_id_seq] is the sequence
    the store draws new question ids from. *)
Record DB : Type := mkDB {
  committed : Tables;
  pending : option Tables;
  questions_id_seq : Z
}.

(** The tables as seen through the session. *)
Definition session_view (db : DB) : Tables :=
  default (committed db) (pending db).

Definition session_write (t : Tables) (db : DB) : DB :=
  {| committed := committed db; pending := Some t;
     questions_id_seq := questions_id_seq db |}.

(** [db.session.commit()] *)
Definition session_commit (db : DB) : DB :=
  {| committed := session_view db; pending := None;
     questions_id_seq := questions_id_seq db |}.

(** [db.session.rollback()] *)
Definition session_rollback (db : DB) : DB :=
  {| committed := committed db; pending := None;
     questions_id_seq := questions_id_seq db |}.

(** [db.session.close()]: releases the session, ending any transaction it
    still has open without committing it. *)
Definition session_close (db : DB) : DB :=
  {| committed := committed db; pending := None;
     questions_id_seq := questions_id_seq db |}.

(** ** Exceptions and the monad of view functions *)

Inductive exception : Type :=
| HTTPException (code : Z)       (* raised by [abort(code)] *)
| KeyError (key : string)        (* a missing dictionary key *)
| DataError.                     (* an error reported by the store *)

Inductive outcome (A : Type) : Type :=
| Return (a : A)
| Raise (e : exception).
Arguments Return {A} a.
Arguments Raise {A} e.

Definition view (A : Type) : Type := DB → outcome A * DB.

Definition ret {A} (a : A) : view A := λ db, (Return a, db).

Definition bind {A B} (m : view A) (k : A → view B) : view B :=
  λ db, match m db with
        | (Return a, db') => k a db'
        | (Raise e, db') => (Raise e, db')
        end.

Definition raise {A} (e : exception) : view A := λ db, (Raise e, db).

Definition abort {A} (code : Z) : view A := raise (HTTPException code).

Notation "x <~ m ;; k" := (bind m (λ x, k))
  (at level 100, m at next level, right associativity,
   format "x  <~  m  ;;  '//' k").
Notation "m ;;; k" := (bind m (λ _, k))
  (at level 100, right associativity).

(** [d[key]] on a dictionary whose entry for [key] is [v] when present. *)
Definition getitem {A} (key : string) (v : option A) : view A :=
  match v with
  | Some a => ret a
  | None => raise (KeyError key)
  end.

(** ** The query interface of the mapper *)

(** [Question.query] and [Category.query] read through the session. *)
Definition Question_query : view (list Question.t) :=
  λ db, (Return (questions (session_view db)), db).

Definition Category_query : view (list Category.t) :=
  λ db, (Return (categories (session_view db)), db).

(** [query.order_by(column)]: the rows in ascending order of an integer
    key. *)
Definition key_le {A} (key : A → Z) : relation A := λ a b, key a ≤ key b.

#[global] Instance key_le_dec {A} (key : A → Z) : RelDecision (key_le key).
Proof. intros a b. unfold key_le. apply _. Defined.

#[global] Instance key_le_total {A} (key : A → Z) : Total (key_le key).
Proof. intros a b. unfold key_le. lia. Qed.

#[global] Instance key_le_trans {A} (key : A → Z) : Transitive (key_le key).
Proof. intros a b c. unfold key_le. lia. Qed.

Definition order_by {A} (key : A → Z) (rows : list A) : list A :=
  merge_sort (key_le key) rows.

(** [query.order_by(func.random())]: the store draws one random value per
    row and orders the rows by it; [rand i] is the value drawn for the
    [i]-th row. *)
Definition order_by_random {A} (rand : nat → Z) (rows : list A) : list A :=
  snd <$> order_by fst (imap (λ i r, (rand i, r)) rows).

(** [query.limit(n)] *)
Definition limit {A} (n : nat) (rows : list A) : list A := take n rows.

(** [query.offset(n)] *)
Definition offset {A} (n : nat) (rows : list A) : list A := drop n rows.

(** [Question.query.get(ident)] and [Category.query.get(ident)]: the row
    with that primary key, or [None]. *)
Definition Question_query_get (ident : Z) : view (option Question.t) :=
  rows <~ Question_query ;;
  ret (snd <$> list_find (λ q, Question.id q = ident) rows).

Definition Category_query_get (ident : Z) : view (option Category.t) :=
  rows <~ Category_query ;;
  ret (snd <$> list_find (λ c, Category.id c = ident) rows).

(** [not rows] on a list. *)
Definition is_empty {A} (rows : list A) : bool :=
  match rows with [] => true | _ :: _ => false end.

(** [query.paginate(page=, per_page=, error_out=).items], after
    Flask-SQLAlchemy: with [error_out] set, a page below 1, a page size
    below 1, or a page other than the first that has no items aborts with
    404; without it the arguments fall back to page 1 and 20 per page. *)
Definition paginate {A} (rows : list A) (page per_page : Z) (error_out : bool)
  : view (list A) :=
  page <~ (if page <? 1 then if error_out then abort 404 else ret 1
           else ret page) ;;
  per_page <~ (if per_page <? 1 then if error_out then abort 404 else ret 20
               else ret per_page) ;;
  let items := limit (Z.to_nat per_page)
                 (offset (Z.to_nat ((page - 1) * per_page)) rows) in
  if is_empty items && negb (page =? 1) && error_out
  then abort 404
  else ret items.

(** [column == value] and [column.not_in(values)] inside
    [query.filter(...)]: [filter] keeps the rows on which every criterion
    holds. *)
Definition not_in (ident : Z) (values : list Z) : Prop := ident ∉ values.

(** *** Pattern matching of [column.ilike(pattern)]

    In a pattern [%] stands for any run of characters, [_] for any one
    character, and the store's escape character (the backslash) makes the
    character after it stand for itself.  [ilike] compares without regard
    to the case of letters. *)

Inductive like_token : Type :=
| AnyRun                    (* [%] *)
| AnyChar                   (* [_] *)
| Literal (c : ascii).

Definition percent : ascii := "%"%char.
Definition underscore : ascii := "_"%char.
Definition backslash : ascii := "092"%char.

(** A pattern that ends in a lone escape character is rejected. *)
Fixpoint like_tokens (pattern : list ascii) : option (list like_token) :=
  match pattern with
  | [] => Some []
  | c :: rest =>
      if Ascii.eqb c percent then cons AnyRun <$> like_tokens rest
      else if Ascii.eqb c underscore then cons AnyChar <$> like_tokens rest
      else if Ascii.eqb c backslash then
        match rest with
        | [] => None
        | d :: rest' => cons (Literal d) <$> like_tokens rest'
        end
      else cons (Literal c) <$> like_tokens rest
  end.

Fixpoint like_match (pattern : list like_token) (s : list ascii) : bool :=
  match pattern with
  | [] => is_empty s
  | AnyRun :: pattern' =>
      (fix any_run (s : list ascii) : bool :=
         like_match pattern' s ||
         match s with
         | [] => false
         | _ :: s' => any_run s'
         end) s
  | AnyChar :: pattern' =>
      match s with
      | [] => false
      | _ :: s' => like_match pattern' s'
      end
  | Literal c :: pattern' =>
      match s with
      | [] => false
      | c' :: s' => Ascii.eqb c c' && like_match pattern' s'
      end
  end.

Definition lower_char (c : ascii) : ascii :=
  let n := N_of_ascii c in
  if ((65 <=? n) && (n <=? 90))%N then ascii_of_N (n + 32) else c.

Definition lower (s : string) : list ascii :=
  lower_char <$> list_ascii_of_string s.

(** [Question.query.filter(Question.question.ilike(pattern)).all()]: the
    rows whose text matches the pattern, both taken in lower case; a
    pattern the store rejects surfaces as an exception of the driver. *)
Definition Question_query_filter_ilike (pattern : string)
  : view (list Question.t) :=
  rows <~ Question_query ;;
  match like_tokens (lower pattern) with
  | None => raise DataError
  | Some tokens =>
      ret (filter (λ q, like_match tokens (lower (Question.question q)) = true)
             rows)
  end.

(** *** Persistence operations of [models.py] *)

(** Modelled from the spec: [Question.insert] of [models.py], which is not
    among the sources.  Section 4.3: it inserts a new Question row
    with an auto-assigned id and commits; section 3: ids are never reused. *)
Definition Question_insert (question answer : string) (difficulty category : Z)
  : view unit :=
  λ db,
    let t := session_view db in
    let row := Question.mk (questions_id_seq db) question answer
                 category difficulty in
    let db' := {| committed := committed db;
                  pending := Some {| questions := questions t ++ [row];
                                     categories := categories t |};
                  questions_id_seq := questions_id_seq db + 1 |} in
    (Return (), session_commit db').

(** Modelled from the spec: [Question.delete] of [models.py], which is not
    among the sources.  Section 4.4: it deletes the row (the one
    with the primary key of the object) and commits. *)
Definition Question_delete (q : Question.t) : view unit :=
  λ db,
    let t := session_view db in
    let db' := session_write
                 {| questions := filter (λ r, Question.id r ≠ Question.id q)
                                   (questions t);
                    categories := categories t |} db in
    (Return (), session_commit db').

(** ** [flaskr/__init__.py] *)

Definition QUESTIONS_PER_PAGE : Z := 10.

Definition categories_to_dict (categories : list Category.t) : gmap Z string :=
  foldl (λ categories_dict c, <[Category.id c := Category.type c]> categories_dict)
    ∅ categories.

(** The decorator: a known HTTP exception is forwarded, any other exception
    becomes [abort(500)], and in every case the session is rolled back and
    closed. *)
Definition handle_exceptions {A} (f : view A) : view A :=
  λ db,
    let '(r, db') := f db in
    let r' := match r with
              | Return a => Return a
              | Raise (HTTPException code) => Raise (HTTPException code)
              | Raise _ => Raise (HTTPException 500)
              end in
    (r', session_close (session_rollback db')).

(** The JSON bodies of the responses, one constructor for each shape that
    [jsonify] is applied to; the arguments are named after the keys. *)
Inductive body : Type :=
| CategoriesBody (success : bool) (total_categories : nat)
    (categories : gmap Z string)
| QuestionPageBody (success : bool) (total_questions : nat)
    (questions : list question_dict) (categories : gmap Z string)
| DeletedBody (success : bool) (id : Z)
| SuccessBody (success : bool)
| SearchBody (success : bool) (total_questions : nat)
    (questions : list question_dict)
| CategoryQuestionsBody (success : bool) (total_questions : nat)
    (questions : list question_dict) (current_category : string)
| QuizBody (success : bool) (question : option question_dict)
| ErrorBody (success : bool) (error : Z) (message : string)
| DefaultErrorPage.

Record Response : Type := mkResponse { status : Z; json : body }.

Definition jsonify (b : body) : Response := {| status := 200; json := b |}.

(** [GET /api/v1.0/categories] *)
Definition get_categories : view Response :=
  handle_exceptions (
    categories <~ Category_query ;;
    ret (jsonify (CategoriesBody true (length categories)
                    (categories_to_dict categories)))).

(** [GET /api/v1.0/questions].  [page] is the [page] query argument when it
    is present and reads as an integer;
    [request.args.get('page', 1, type=int)] falls back to 1. *)
Definition get_paginated_questions (page : option Z) : view Response :=
  handle_exceptions (
    let page := default 1 page in
    rows <~ Question_query ;;
    questions <~ paginate (order_by Question.id rows) page QUESTIONS_PER_PAGE
                   true ;;
    categories <~ Category_query ;;
    let categories_dict := categories_to_dict (order_by Category.id categories) in
    ret (jsonify (QuestionPageBody true (length questions)
                    (format <$> questions) categories_dict))).

(** [DELETE /api/v1.0/questions/<int:question_id>] *)
Definition delete_question (question_id : Z) : view Response :=
  handle_exceptions (
    q <~ Question_query_get question_id ;;
    match q with
    | None => abort 404
    | Some q =>
        Question_delete q ;;;
        ret (jsonify (DeletedBody true question_id))
    end).

(** The JSON object of a creation request, its four keys typed as in the
    data model.  A key may be missing ([None]); [question] and [answer] may
    hold [null] ([Some None]). *)
Record Form : Type := mkForm {
  form_question : option (option string);
  form_answer : option (option string);
  form_category : option Z;
  form_difficulty : option Z
}.

(** [request.get_json()]: the parsed body; a body that is not well-formed
    JSON ([None]) is a bad request. *)
Definition get_json {A} (parsed : option A) : view A :=
  match parsed with
  | Some a => ret a
  | None => abort 400
  end.

(** [POST /api/v1.0/questions].  The four tests of the validity check are
    made in the order of the [or] chain ([question == ''], [answer == ''],
    [question is None], [answer is None]), each lookup raising if its key is
    missing; the keyword arguments of [Question(...)] are evaluated in the
    order question, answer, difficulty, category. *)
Definition create_question (body : option Form) : view Response :=
  handle_exceptions (
    form <~ get_json body ;;
    q <~ getitem "question" (form_question form) ;;
    if bool_decide (q = Some "") then abort 422 else
    a <~ getitem "answer" (form_answer form) ;;
    if bool_decide (a = Some "") then abort 422 else
    match q with
    | None => abort 422
    | Some question =>
    match a with
    | None => abort 422
    | Some answer =>
        category <~ getitem "category" (form_category form) ;;
        c <~ Category_query_get category ;;
        match c with
        | None => abort 422
        | Some _ =>
            difficulty <~ getitem "difficulty" (form_difficulty form) ;;
            Question_insert question answer difficulty category ;;;
            ret (jsonify (SuccessBody true))
        end
    end
    end).

(** [POST /api/v1.0/questions/search].  [search_term] is the [search_term]
    query argument when present;
    [request.args.get('search_term', '', type=str)] falls back to the empty
    string.  The pattern is the f-string ['%{search_term}%']. *)
Definition search_question (search_term : option string) : view Response :=
  handle_exceptions (
    let search_term := default "" search_term in
    questions <~ Question_query_filter_ilike ("%" ++ search_term ++ "%")%string ;;
    ret (jsonify (SearchBody true (length questions) (format <$> questions)))).

(** [GET /api/v1.0/categories/<int:category_id>/questions] *)
Definition get_questions_by_category (category_id : Z) : view Response :=
  handle_exceptions (
    category <~ Category_query_get category_id ;;
    match category with
    | None => abort 404
    | Some category =>
        rows <~ Question_query ;;
        let questions :=
          format <$> filter (λ q, Question.category q = category_id) rows in
        ret (jsonify (CategoryQuestionsBody true (length questions) questions
                        (Category.type category)))
    end).

(** The JSON object of a quiz request: [quiz_category.id] and
    [previous_questions]. *)
Record QuizData : Type := mkQuizData {
  quiz_category_id : Z;
  previous_questions : list Z
}.

(** [POST /api/v1.0/quizzes]; [rand] is the random source of the store. *)
Definition play_quiz (rand : nat → Z) (body : option QuizData) : view Response :=
  handle_exceptions (
    data <~ get_json body ;;
    let category_id := quiz_category_id data in
    rows <~ Question_query ;;
    let question :=
      if category_id >? 0
      then limit 1 (order_by_random rand
                      (filter (λ q, Question.category q = category_id ∧
                                    not_in (Question.id q) (previous_questions data))
                         rows))
      else limit 1 (order_by_random rand
                      (filter (λ q, not_in (Question.id q) (previous_questions data))
                         rows)) in
    let question_res :=
      match question with
      | [] => None
      | q :: _ => Some (format q)
      end in
    ret (jsonify (QuizBody true question_res))).

(** The registered error handlers. *)
Definition not_found : Response :=
  {| status := 404; json := ErrorBody false 404 "Resource Not Found" |}.
Definition bad_request : Response :=
  {| status := 400; json := ErrorBody false 400 "Bad Request" |}.
Definition unprocessable : Response :=
  {| status := 422; json := ErrorBody false 422 "Unprocessable" |}.
Definition internal_server_error : Response :=
  {| status := 500; json := ErrorBody false 500 "Internal Server Error" |}.

Definition errorhandler (code : Z) : Response :=
  if code =? 404 then not_found
  else if code =? 400 then bad_request
  else if code =? 422 then unprocessable
  else if code =? 500 then internal_server_error
  else {| status := code; json := DefaultErrorPage |}.

(** ** The application *)

Inductive Request : Type :=
| GET_categories
| GET_questions (page : option Z)
| DELETE_question (question_id : Z)
| POST_questions (body : option Form)
| POST_questions_search (search_term : option string)
| GET_category_questions (category_id : Z)
| POST_quizzes (body : option QuizData).

Definition route (rand : nat → Z) (r : Request) : view Response :=
  match r with
  | GET_categories => get_categories
  | GET_questions page => get_paginated_questions page
  | DELETE_question question_id => delete_question question_id
  | POST_questions body => create_question body
  | POST_questions_search search_term => search_question search_term
  | GET_category_questions category_id => get_questions_by_category category_id
  | POST_quizzes body => play_quiz rand body
  end.

(** One request: the view function runs, and an exception leaving it is
    answered by the error handler of its code (an exception that is not an
    HTTP exception by the one of 500).  [rand] is the random source of the
    store during the request. *)
Definition serve (rand : nat → Z) (r : Request) (db : DB) : Response * DB :=
  match route rand r db with
  | (Return response, db') => (response, db')
  | (Raise (HTTPException code), db') => (errorhandler code, db')
  | (Raise _, db') => (internal_server_error, db')
  end.

(** ** A small store to run the handlers on *)

Definition sample_categories : list Category.t :=
  [ Category.mk 2 "Art"; Category.mk 1 "Science"; Category.mk 3 "Geography" ].

Definition sample_questions : list Question.t :=
  [ Question.mk 20 "What is the heaviest organ in the human body?" "The Liver" 1 4;
    Question.mk 5 "Whose autobiography is entitled 'I Know Why the Caged Bird Sings'?" "Maya Angelou" 2 2;
    Question.mk 21 "Who discovered penicillin?" "Alexander Fleming" 1 3;
    Question.mk 15 "The Taj Mahal is located in which Indian city?" "Agra" 3 2;
    Question.mk 22 "Hematology is a branch of medicine involving the study of what?" "Blood" 1 4;
    Question.mk 13 "What is the largest lake in Africa?" "Lake Victoria" 3 2;
    Question.mk 16 "Which Dutch graphic artist was a creator of optical illusions?" "Escher" 2 1;
    Question.mk 17 "La Giaconda is better known as what?" "Mona Lisa" 2 3;
    Question.mk 18 "How many paintings did Van Gogh sell in his lifetime?" "One" 2 4;
    Question.mk 19 "Which American artist was a pioneer of Abstract Expressionism?" "Jackson Pollock" 2 2;
    Question.mk 14 "In which royal palace would you find the Hall of Mirrors?" "The Palace of Versailles" 3 3;
    Question.mk 9 "What boxer's original name is Cassius Clay?" "Muhammad Ali" 3 1 ].

Definition sample_db : DB :=
  {| committed := {| questions := sample_questions;
                     categories := sample_categories |};
     pending := None;
     questions_id_seq := 23 |}.

(** A random source: the values drawn are 7, 4, 1, 8, 5, ... *)
Definition sample_rand (i : nat) : Z := (7 + 7 * Z.of_nat i) mod 10.

(** ** Vocabulary of the properties *)

(** A category, a question of that primary key is in the tables. *)
Definition category_exists (t : Tables) (ident : Z) : Prop :=
  ∃ c, c ∈ categories t ∧ Category.id c = ident.

Definition question_exists (t : Tables) (ident : Z) : Prop :=
  ∃ q, q ∈ questions t ∧ Question.id q = ident.

(** A question the quiz may ask: not asked before and, when a category is
    chosen (a positive id), of that category. *)
Definition eligible (data : QuizData) (q : Question.t) : Prop :=
  (Question.id q ∉ previous_questions data) ∧
  (0 < quiz_category_id data → Question.category q = quiz_category_id data).

(** A value of [question] or [answer] that the validity check refuses:
    null or the empty string. *)
Definition blank (v : option string) : Prop := v = None ∨ v = Some "".

(** Some key of the four is missing from the body. *)
Definition missing_key (form : Form) : Prop :=
  form_question form = None ∨ form_answer form = None ∨
  form_category form = None ∨ form_difficulty form = None.

(** The handler comes to look up a key that is missing: [question]; or
    [answer], when [question] is not the empty string; or [category], when
    question and answer passed the validity check; or [difficulty], when in
    addition the category exists. *)
Definition reaches_missing_key (t : Tables) (form : Form) : Prop :=
  form_question form = None ∨
  (∃ q, form_question form = Some q ∧ q ≠ Some "" ∧ form_answer form = None) ∨
  (∃ q a, form_question form = Some q ∧ form_answer form = Some a ∧
          ¬ blank q ∧ ¬ blank a ∧
          (form_category form = None ∨
           ∃ c, form_category form = Some c ∧ category_exists t c ∧
                form_difficulty form = None)).

(** The responses of the four registered error handlers. *)
Definition error_response (r : Response) : Prop :=
  r = bad_request ∨ r = not_found ∨ r = unprocessable ∨ r = internal_server_error.

(** A store whose session has a write still pending (all questions
    removed, not committed). *)
Definition dirty_db : DB :=
  {| committed := committed sample_db;
     pending := Some {| questions := []; categories := sample_categories |};
     questions_id_seq := 23 |}.


(** Requests served one after the other: a creation, a deletion, a
    creation that is refused, a page of the listing, another creation. *)
Definition sample_requests : list ((nat → Z) * Request) :=
  [ (sample_rand,
     POST_questions (Some (mkForm (Some (Some "New question"))
                             (Some (Some "New answer")) (Some 2) (Some 1))));
    (sample_rand, DELETE_question 9);
    (sample_rand,
     POST_questions (Some (mkForm (Some (Some "")) (Some (Some "New answer"))
                             (Some 2) (Some 1))));
    (sample_rand, GET_questions (Some 2));
    (sample_rand,
     POST_questions (Some (mkForm (Some (Some "Another question"))
                             (Some (Some "Another answer")) (Some 3) (Some 5)))) ].

(** [term] occurs in [text] as a run of consecutive characters. *)
Definition contains (term text : list ascii) : Prop :=
  ∃ pre post : list ascii, text = (pre ++ term ++ post)%list.

(** The same without regard to the case of letters. *)
Definition icontains (term text : string) : Prop :=
  contains (lower term) (lower text).

Definition has_wildcard (term : string) : Prop :=
  percent ∈ list_ascii_of_string term ∨ underscore ∈ list_ascii_of_string term.

(** A term on which the pattern language has no effect. *)
Definition plain (term : string) : Prop :=
  (percent ∉ list_ascii_of_string term) ∧
  (underscore ∉ list_ascii_of_string term) ∧
  (backslash ∉ list_ascii_of_string term).

(** A text that a list of tokens matches: nothing for a run, the letter x
    for any one character, and each literal character itself. *)
Fixpoint expand (tokens : list like_token) : list ascii :=
  match tokens with
  | [] => []
  | AnyRun :: tokens' => expand tokens'
  | AnyChar :: tokens' => "x"%char :: expand tokens'
  | Literal c :: tokens' => c :: expand tokens'
  end.

(** The length of a text plus the number of its underscores; it cannot be
    smaller for a text than for a term the text contains. *)
Fixpoint weight (l : list ascii) : nat :=
  match l with
  | [] => 0
  | c :: l' => (if Ascii.eqb c underscore then 2 else 1) + weight l'
  end.

(** A character that lowering leaves as it is. *)
Definition lowered (c : ascii) : Prop := lower_char c = c.

(** What tokenising [s] followed by the closing [%] yields: tokens whose
    expansion weighs no more than [s], and less when [s] has a wildcard. *)
Definition closes (s : list ascii) : Prop :=
  ∃ tokens,
    like_tokens (s ++ [percent]) = Some tokens ∧
    (weight (expand tokens) ≤ weight s)%nat ∧
    (percent ∈ s ∨ underscore ∈ s → (weight (expand tokens) < weight s)%nat) ∧
    (Forall lowered s → Forall lowered (expand tokens)).

(** A character that stands for itself in a pattern. *)
Definition ordinary (c : ascii) : Prop :=
  c ≠ percent ∧ c ≠ underscore ∧ c ≠ backslash.


(** The requests that are served one after the other, each with the
    random source of the store at its time; the responses and the store
    at the end. *)
Fixpoint serve_all (requests : list ((nat → Z) * Request)) (db : DB)
  : list Response * DB :=
  match requests with
  | [] => ([], db)
  | (rand, r) :: rest =>
      let '(response, db') := serve rand r db in
      let '(responses, db'') := serve_all rest db' in
      (response :: responses, db'')
  end.

(** The requests whose view function calls neither [insert] nor
    [delete]. *)
Definition reads_only (r : Request) : Prop :=
  match r with
  | DELETE_question _ | POST_questions _ => False
  | _ => True
  end.

(** The questions as the creation handler lets them in: a non-empty text
    and answer, and a category that is the id of a category. *)
Definition questions_valid (t : Tables) : Prop :=
  ∀ q, q ∈ questions t →
    Question.question q ≠ "" ∧ Question.answer q ≠ "" ∧
    category_exists t (Question.category q).

(** The ids of the questions are unique and below the next id of the
    sequence. *)
Definition ids_fresh (db : DB) : Prop :=
  NoDup (Question.id <$> questions (committed db)) ∧
  ∀ q, q ∈ questions (committed db) → Question.id q < questions_id_seq db.

(** The rows a quiz request draws from, by the branch its category id
    selects. *)
Definition quiz_candidates (data : QuizData) (rows : list Question.t)
  : list Question.t :=
  if quiz_category_id data >? 0
  then filter (λ q, Question.category q = quiz_category_id data ∧
                    not_in (Question.id q) (previous_questions data)) rows
  else filter (λ q, not_in (Question.id q) (previous_questions data)) rows.

(** A random source that draws the least value for the [i]-th row. *)
Definition favour (i : nat) (j : nat) : Z := if (j =? i)%nat then 0 else 1.

(** ** Basic facts about the session, the guard and the queries *)

Lemma session_view_rollback db :
  session_view (session_rollback db) = committed db.
Proof. reflexivity. Qed.

Lemma handle_exceptions_run {A} (f : view A) db :
  handle_exceptions f db =
    (match fst (f db) with
     | Return a => Return a
     | Raise (HTTPException code) => Raise (HTTPException code)
     | Raise _ => Raise (HTTPException 500)
     end, session_rollback (snd (f db))).
Proof. unfold handle_exceptions. destruct (f db) as [r db']. reflexivity. Qed.

Lemma find_by_key_None {A} (key : A → Z) (ident : Z) (rows : list A) :
  list_find (λ r, key r = ident) rows = None ↔ ∀ r, r ∈ rows → key r ≠ ident.
Proof. rewrite list_find_None, Forall_forall. reflexivity. Qed.

Lemma find_by_key_Some {A} (key : A → Z) (ident : Z) (rows : list A) i r :
  list_find (λ r, key r = ident) rows = Some (i, r) → r ∈ rows ∧ key r = ident.
Proof.
  intros H. apply list_find_Some in H as (Hi & Hk & _).
  split; [eapply list_elem_of_lookup_2; eassumption | assumption].
Qed.

Lemma find_by_key_is_Some {A} (key : A → Z) (ident : Z) (rows : list A) :
  (∃ r, r ∈ rows ∧ key r = ident) →
  ∃ i r, list_find (λ r, key r = ident) rows = Some (i, r).
Proof.
  intros (r & Hin & Hk).
  destruct (list_find (λ r, key r = ident) rows) as [[i r']|] eqn:E.
  - eauto.
  - exfalso. rewrite find_by_key_None in E. exact (E r Hin Hk).
Qed.

(** The dictionary built by [categories_to_dict]: a later category
    overwrites an earlier one of the same id; with unique ids every
    category is found under its id, and nothing else is. *)
Lemma categories_to_dict_snoc (cs : list Category.t) (c : Category.t) :
  categories_to_dict (cs ++ [c]) =
    <[Category.id c := Category.type c]> (categories_to_dict cs).
Proof. unfold categories_to_dict. rewrite foldl_snoc. reflexivity. Qed.

Lemma categories_to_dict_None (cs : list Category.t) (ident : Z) :
  (∀ c, c ∈ cs → Category.id c ≠ ident) → categories_to_dict cs !! ident = None.
Proof.
  induction cs as [|c cs IH] using rev_ind; intros Hno; [reflexivity|].
  rewrite categories_to_dict_snoc, lookup_insert_ne.
  - apply IH. intros c' Hc'. apply Hno, elem_of_app. left. exact Hc'.
  - apply Hno, elem_of_app. right. apply list_elem_of_singleton. reflexivity.
Qed.

Lemma categories_to_dict_lookup (cs : list Category.t) (c : Category.t) :
  NoDup (Category.id <$> cs) → c ∈ cs →
  categories_to_dict cs !! Category.id c = Some (Category.type c).
Proof.
  induction cs as [|x cs IH] using rev_ind; intros Hnd Hc; [inversion Hc|].
  rewrite fmap_app in Hnd. apply NoDup_app in Hnd as (Hnd & Hfresh & _).
  rewrite categories_to_dict_snoc.
  apply elem_of_app in Hc as [Hc|Hc].
  - rewrite lookup_insert_ne; [apply IH; assumption|].
    intros E. apply (Hfresh (Category.id c)).
    + apply list_elem_of_fmap_2. exact Hc.
    + rewrite <- E. apply list_elem_of_singleton. reflexivity.
  - apply list_elem_of_singleton in Hc as ->. apply lookup_insert_eq.
Qed.

(** Membership in a list that is written out. *)
Ltac in_rows H :=
  apply list_elem_of_In in H; cbn in H;
  repeat (destruct H as [H|H]; [subst|]); [..|contradiction].

Ltac is_row := apply list_elem_of_In; cbn; tauto.

(** With unique keys the row found is the only one with that key. *)
Lemma unique_key {A} (key : A → Z) (rows : list A) (r r' : A) :
  NoDup (key <$> rows) → r ∈ rows → r' ∈ rows → key r = key r' → r = r'.
Proof.
  induction rows as [|x rows IH]; intros Hnd Hr Hr' Hk.
  - inversion Hr.
  - rewrite fmap_cons in Hnd. apply NoDup_cons in Hnd as [Hx Hnd].
    apply elem_of_cons in Hr as [->|Hr]; apply elem_of_cons in Hr' as [->|Hr'].
    + reflexivity.
    + exfalso. apply Hx. rewrite Hk. apply list_elem_of_fmap. eauto.
    + exfalso. apply Hx. rewrite <- Hk. apply list_elem_of_fmap. eauto.
    + auto.
Qed.

(** ** Questions of one category *)

(** C6. The listing of the questions of a category answers 404 when no
    category has the id of the path; otherwise it answers 200 with exactly
    the questions whose [category] is that id (so each question returned has
    it), their number as [total_questions], and the [type] of the category
    of that id as [current_category]. *)
Theorem get_questions_by_category_spec (rand : nat → Z) (db : DB) (category_id : Z) :
  let t := session_view db in
  (¬ category_exists t category_id →
     serve rand (GET_category_questions category_id) db =
       ({| status := 404; json := ErrorBody false 404 "Resource Not Found" |},
        session_rollback db)) ∧
  (category_exists t category_id →
     ∃ (c : Category.t) (qs : list Question.t),
       serve rand (GET_category_questions category_id) db =
         ({| status := 200;
             json := CategoryQuestionsBody true (length qs) (format <$> qs)
                       (Category.type c) |},
          session_rollback db) ∧
       c ∈ categories t ∧ Category.id c = category_id ∧
       (NoDup (Category.id <$> categories t) →
          ∀ c', c' ∈ categories t → Category.id c' = category_id → c' = c) ∧
       qs = filter (λ q, Question.category q = category_id) (questions t) ∧
       (∀ q, q ∈ qs ↔ q ∈ questions t ∧ Question.category q = category_id) ∧
       (∀ d, d ∈ format <$> qs → dict_category d = category_id)).
Proof.
  intros t. split.
  - intros Hno.
    assert (E : list_find (λ c, Category.id c = category_id) (categories t) = None).
    { apply find_by_key_None. intros c Hc Hid. apply Hno. exists c. auto. }
    unfold serve, route, get_questions_by_category.
    rewrite handle_exceptions_run.
    unfold bind, Category_query_get, Category_query, bind, ret. fold t.
    rewrite E. reflexivity.
  - intros Hex.
    destruct (find_by_key_is_Some Category.id category_id (categories t) Hex)
      as (i & c & E).
    pose proof (find_by_key_Some _ _ _ _ _ E) as [Hc Hid].
    exists c, (filter (λ q, Question.category q = category_id) (questions t)).
    split; [|split; [exact Hc|split; [exact Hid|split; [|split; [reflexivity|split]]]]].
    + unfold serve, route, get_questions_by_category.
      rewrite handle_exceptions_run.
      unfold bind, Category_query_get, Category_query, Question_query, bind, ret.
      fold t. rewrite E. cbn. rewrite length_fmap. reflexivity.
    + intros Hnd c' Hc' Hid'.
      apply (unique_key Category.id (categories t)); auto. congruence.
    + intros q. rewrite list_elem_of_filter. tauto.
    + intros d Hd. apply list_elem_of_fmap in Hd as (q & -> & Hq).
      apply list_elem_of_filter in Hq as [Hq _]. exact Hq.
Qed.

(** The theorem at work on the sample store: category 1234 does not exist,
    category 1 is "Science" and has three questions. *)
Lemma get_questions_by_category_spec_witness :
  fst (serve sample_rand (GET_category_questions 1234) sample_db) = not_found ∧
  ∃ qs, fst (serve sample_rand (GET_category_questions 1) sample_db) =
          jsonify (CategoryQuestionsBody true 3 qs "Science").
Proof.
  destruct (get_questions_by_category_spec sample_rand sample_db 1234) as [H404 _].
  destruct (get_questions_by_category_spec sample_rand sample_db 1) as [_ H200].
  split.
  - rewrite H404; [reflexivity|].
    intros (c & Hc & Hid). in_rows Hc; discriminate Hid.
  - destruct H200 as (c & qs & Hs & Hc & Hid & _ & Hqs & _).
    { exists (Category.mk 1 "Science"). split; [is_row | reflexivity]. }
    exists (format <$> qs). rewrite Hs. cbn.
    assert (c = Category.mk 1 "Science") as ->.
    { in_rows Hc; try discriminate Hid. reflexivity. }
    subst qs. reflexivity.
Defined.

(** ** Deleting a question *)

(** C4. Deleting an id that no question has answers 404 with the message
    "Resource Not Found" and leaves the store as it was.  Deleting the id
    of a question answers 200 with [success] true and the id; the store then
    holds the other questions only, so that deleting the id once more
    answers 404. *)
Theorem delete_question_spec (rand : nat → Z) (db : DB) (question_id : Z) :
  let t := session_view db in
  (¬ question_exists t question_id →
     serve rand (DELETE_question question_id) db =
       ({| status := 404; json := ErrorBody false 404 "Resource Not Found" |},
        {| committed := committed db; pending := None;
           questions_id_seq := questions_id_seq db |})) ∧
  (question_exists t question_id →
     ∃ db',
       serve rand (DELETE_question question_id) db =
         ({| status := 200; json := DeletedBody true question_id |}, db') ∧
       pending db' = None ∧
       questions (committed db') =
         filter (λ q, Question.id q ≠ question_id) (questions t) ∧
       categories (committed db') = categories t ∧
       ¬ question_exists (committed db') question_id ∧
       ∀ rand', serve rand' (DELETE_question question_id) db' =
                  ({| status := 404;
                      json := ErrorBody false 404 "Resource Not Found" |}, db')).
Proof.
  intros t.
  assert (Hmiss : ∀ rand' d, ¬ question_exists (session_view d) question_id →
            serve rand' (DELETE_question question_id) d =
              (not_found, session_rollback d)).
  { intros rand' d Hno.
    assert (E : list_find (λ q, Question.id q = question_id)
                  (questions (session_view d)) = None).
    { apply find_by_key_None. intros q Hq Hid. apply Hno. exists q. auto. }
    unfold serve, route, delete_question. rewrite handle_exceptions_run.
    unfold bind, Question_query_get, Question_query, bind, ret.
    rewrite E. reflexivity. }
  split; [apply Hmiss|].
  intros Hex.
  destruct (find_by_key_is_Some Question.id question_id (questions t) Hex)
    as (i & q & E).
  pose proof (find_by_key_Some _ _ _ _ _ E) as [Hq Hid].
  set (t' := {| questions := filter (λ r, Question.id r ≠ question_id) (questions t);
                categories := categories t |}).
  assert (Hgone : ¬ question_exists t' question_id).
  { intros (r & Hr & Hrid). apply list_elem_of_filter in Hr as [Hne _].
    exact (Hne Hrid). }
  exists {| committed := t'; pending := None;
            questions_id_seq := questions_id_seq db |}.
  split; [|split; [reflexivity|split; [reflexivity|split; [reflexivity|split]]]].
  - unfold serve, route, delete_question. rewrite handle_exceptions_run.
    unfold bind, Question_query_get, Question_query, bind, ret.
    fold t. rewrite E. cbn. fold t. rewrite Hid. reflexivity.
  - exact Hgone.
  - intros rand'. rewrite Hmiss; [reflexivity|exact Hgone].
Qed.

(** On the sample store: no question has id 1234567890; question 9 exists,
    and is gone once deleted. *)
Lemma delete_question_spec_witness :
  fst (serve sample_rand (DELETE_question 1234567890) sample_db) = not_found ∧
  ∃ db', serve sample_rand (DELETE_question 9) sample_db =
           (jsonify (DeletedBody true 9), db') ∧
         length (questions (committed db')) = 11%nat ∧
         fst (serve sample_rand (DELETE_question 9) db') = not_found.
Proof.
  destruct (delete_question_spec sample_rand sample_db 1234567890) as [H404 _].
  destruct (delete_question_spec sample_rand sample_db 9) as [_ H200].
  split.
  - rewrite H404; [reflexivity|].
    intros (q & Hq & Hid). in_rows Hq; discriminate Hid.
  - destruct H200 as (db' & Hs & _ & Hqs & _ & _ & Hagain).
    { exists (Question.mk 9 "What boxer's original name is Cassius Clay?"
                "Muhammad Ali" 3 1).
      split; [is_row | reflexivity]. }
    exists db'. split; [exact Hs|]. split.
    + rewrite Hqs. reflexivity.
    + rewrite (Hagain sample_rand). reflexivity.
Defined.

(** ** The paginated listing *)

Lemma order_by_Permutation {A} (key : A → Z) (rows : list A) :
  order_by key rows ≡ₚ rows.
Proof. apply merge_sort_Permutation. Qed.

Lemma order_by_ascending {A} (key : A → Z) (rows : list A) :
  StronglySorted (λ a b, key a ≤ key b) (order_by key rows).
Proof. apply (StronglySorted_merge_sort (key_le key)). Qed.

Lemma order_by_length {A} (key : A → Z) (rows : list A) :
  length (order_by key rows) = length rows.
Proof. apply Permutation_length, order_by_Permutation. Qed.

(** The page of [paginate] with [error_out] set, for a page number from 1
    on: the slice, unless it is empty on a page other than the first. *)
Lemma paginate_error_out {A} (rows : list A) (page : Z) (db : DB) :
  1 ≤ page →
  paginate rows page QUESTIONS_PER_PAGE true db =
    let items := take 10 (drop (Z.to_nat ((page - 1) * 10)) rows) in
    if is_empty items && negb (page =? 1)
    then (Raise (HTTPException 404), db)
    else (Return items, db).
Proof.
  intros Hpage. unfold paginate, bind, QUESTIONS_PER_PAGE.
  destruct (page <? 1) eqn:E; [apply Z.ltb_lt in E; lia|].
  cbn. unfold limit, offset.
  destruct (is_empty _ && negb (page =? 1)); reflexivity.
Qed.

Lemma is_empty_length {A} (rows : list A) :
  is_empty rows = true ↔ length rows = 0%nat.
Proof. destruct rows; cbn; split; congruence. Qed.

Lemma page_length {A} (rows : list A) (page : Z) :
  1 ≤ page →
  length (take 10 (drop (Z.to_nat ((page - 1) * 10)) rows)) =
    (10 `min` (length rows - Z.to_nat ((page - 1) * 10)))%nat.
Proof. intros _. rewrite length_take, length_drop. reflexivity. Qed.

Lemma page_bounds (n : nat) (page : Z) :
  1 ≤ page → (page - 1) * 10 < Z.of_nat n →
  (0 < 10 `min` (n - Z.to_nat ((page - 1) * 10)) ≤ 10)%nat.
Proof. lia. Qed.

(** C7. For a page within range, the listing answers 200 with the slice of
    at most ten questions that the page selects from the questions in
    ascending order of id; [total_questions] is the number of questions of
    that slice. *)
Theorem get_paginated_questions_in_range (rand : nat → Z) (db : DB) (page : Z) :
  let t := session_view db in
  let ordered := order_by Question.id (questions t) in
  1 ≤ page →
  (page - 1) * 10 < Z.of_nat (length (questions t)) →
  ∃ items : list Question.t,
    serve rand (GET_questions (Some page)) db =
      ({| status := 200;
          json := QuestionPageBody true (length items) (format <$> items)
                    (categories_to_dict (order_by Category.id (categories t))) |},
       session_rollback db) ∧
    items = take 10 (drop (Z.to_nat ((page - 1) * 10)) ordered) ∧
    ordered ≡ₚ questions t ∧
    StronglySorted (λ a b, Question.id a ≤ Question.id b) ordered ∧
    length (format <$> items) = length items ∧
    length items =
      (10 `min` (length (questions t) - Z.to_nat ((page - 1) * 10)))%nat ∧
    (0 < length items ≤ 10)%nat.
Proof.
  intros t ordered Hpage Hrange.
  assert (Hlen : length (take 10 (drop (Z.to_nat ((page - 1) * 10)) ordered)) =
            (10 `min` (length (questions t) - Z.to_nat ((page - 1) * 10)))%nat).
  { rewrite page_length by exact Hpage. unfold ordered.
    rewrite order_by_length. reflexivity. }
  exists (take 10 (drop (Z.to_nat ((page - 1) * 10)) ordered)).
  split; [|split; [reflexivity|split; [apply order_by_Permutation|
           split; [apply order_by_ascending|split; [apply length_fmap|
           split; [exact Hlen|rewrite Hlen; apply page_bounds; assumption]]]]]].
  unfold serve, route, get_paginated_questions.
  rewrite handle_exceptions_run.
  change (default 1 (Some page)) with page.
  unfold bind, Question_query.
  rewrite paginate_error_out by exact Hpage.
  fold t. fold ordered. cbv zeta.
  destruct (is_empty _) eqn:E.
  - apply is_empty_length in E. rewrite Hlen in E.
    pose proof (page_bounds _ _ Hpage Hrange). lia.
  - reflexivity.
Qed.

(** On the sample store of twelve questions, page 2 holds the two
    questions with the largest ids. *)
Lemma get_paginated_questions_in_range_witness :
  ∃ items : list Question.t,
    fst (serve sample_rand (GET_questions (Some 2)) sample_db) =
      jsonify (QuestionPageBody true 2 (format <$> items)
                 (categories_to_dict (order_by Category.id sample_categories))) ∧
    Question.id <$> items = [21; 22].
Proof.
  destruct (get_paginated_questions_in_range sample_rand sample_db 2)
    as (items & Hs & Hitems & _); [lia | cbn; lia |].
  exists items. rewrite Hs. subst items. split; reflexivity.
Defined.

(** Without a [page] argument the first page is served. *)
Lemma get_paginated_questions_default (rand : nat → Z) (db : DB) :
  serve rand (GET_questions None) db = serve rand (GET_questions (Some 1)) db.
Proof. reflexivity. Qed.

(** A page beyond the last one: [paginate] is called with [error_out] set,
    finds no items on a page that is not the first, and aborts with 404. *)
Lemma get_paginated_questions_beyond (rand : nat → Z) (db : DB) (page : Z) :
  1 < page →
  Z.of_nat (length (questions (session_view db))) ≤ (page - 1) * 10 →
  serve rand (GET_questions (Some page)) db = (not_found, session_rollback db).
Proof.
  intros Hpage Hrange.
  unfold serve, route, get_paginated_questions.
  rewrite handle_exceptions_run.
  change (default 1 (Some page)) with page.
  unfold bind, Question_query.
  rewrite paginate_error_out by lia. cbv zeta.
  assert (E : is_empty (take 10 (drop (Z.to_nat ((page - 1) * 10))
                 (order_by Question.id (questions (session_view db))))) = true).
  { apply is_empty_length. rewrite page_length, order_by_length by lia. lia. }
  rewrite E. destruct (page =? 1) eqn:E1; [apply Z.eqb_eq in E1; lia|].
  reflexivity.
Qed.

(** C1, at the request of the repository's own test for an invalid page:
    page 10000 of a store of twelve questions is answered with the 404
    error body, not with 200 and an empty list of questions. *)
Theorem get_paginated_questions_page_10000 :
  serve sample_rand (GET_questions (Some 10000)) sample_db =
    ({| status := 404; json := ErrorBody false 404 "Resource Not Found" |},
     sample_db) ∧
  ∀ categories_dict,
    fst (serve sample_rand (GET_questions (Some 10000)) sample_db) ≠
      {| status := 200; json := QuestionPageBody true 0 [] categories_dict |}.
Proof.
  assert (H : serve sample_rand (GET_questions (Some 10000)) sample_db =
                (not_found, sample_db)).
  { rewrite get_paginated_questions_beyond; [reflexivity | lia | cbn; lia]. }
  split; [exact H|].
  intros d. rewrite H. discriminate.
Qed.

(** ** Playing the quiz *)

Lemma order_by_random_Permutation {A} (rand : nat → Z) (rows : list A) :
  order_by_random rand rows ≡ₚ rows.
Proof.
  unfold order_by_random. rewrite order_by_Permutation.
  rewrite fmap_imap.
  rewrite (imap_ext _ (const id)) by reflexivity.
  rewrite imap_const, list_fmap_id. reflexivity.
Qed.

(** The first row of a random ordering is one of the rows, and there is
    one as soon as there are rows. *)
Lemma limit_1_order_by_random {A} (rand : nat → Z) (rows : list A) :
  match limit 1 (order_by_random rand rows) with
  | [] => rows = []
  | q :: _ => q ∈ rows
  end.
Proof.
  pose proof (order_by_random_Permutation rand rows) as Hp.
  destruct (order_by_random rand rows) as [|q l]; cbn.
  - symmetry. apply Permutation_nil_l. exact Hp.
  - apply list_elem_of_In. apply (Permutation_in _ Hp). left. reflexivity.
Qed.

(** C2. A quiz request with a category id and a list of previous
    questions is answered 200 with [success] true.  A question returned is
    a question of the store whose id is not among the previous ones and,
    for a positive category id, whose category is that id; and [question]
    is null exactly when the store has no such question. *)
Theorem play_quiz_spec (rand : nat → Z) (db : DB) (data : QuizData) :
  ∃ question_res : option question_dict,
    serve rand (POST_quizzes (Some data)) db =
      ({| status := 200; json := QuizBody true question_res |},
       session_rollback db) ∧
    (∀ d, question_res = Some d →
       (dict_id d ∉ previous_questions data) ∧
       (0 < quiz_category_id data → dict_category d = quiz_category_id data) ∧
       ∃ q, q ∈ questions (session_view db) ∧ d = format q) ∧
    (question_res = None ↔
       ∀ q, q ∈ questions (session_view db) → ¬ eligible data q).
Proof.
  set (rows := questions (session_view db)).
  set (prev := previous_questions data).
  set (cid := quiz_category_id data).
  (* the candidates of the query, whichever branch is taken *)
  assert (Hcand : ∃ cands : list Question.t,
            (∀ q, q ∈ cands ↔ q ∈ rows ∧ eligible data q) ∧
            serve rand (POST_quizzes (Some data)) db =
              (jsonify (QuizBody true
                          match limit 1 (order_by_random rand cands) with
                          | [] => None
                          | q :: _ => Some (format q)
                          end), session_rollback db)).
  { destruct (cid >? 0) eqn:E.
    - exists (filter (λ q, Question.category q = cid ∧ not_in (Question.id q) prev)
                rows).
      split.
      + intros q. rewrite list_elem_of_filter. unfold eligible, not_in.
        fold cid prev. apply Z.gtb_lt in E. tauto.
      + unfold serve, route, play_quiz. rewrite handle_exceptions_run.
        unfold bind, get_json, Question_query, ret. fold rows cid prev.
        rewrite E. reflexivity.
    - exists (filter (λ q, not_in (Question.id q) prev) rows).
      split.
      + intros q. rewrite list_elem_of_filter. unfold eligible, not_in.
        fold cid prev.
        assert (¬ 0 < cid) by (rewrite Z.gtb_ltb in E; apply Z.ltb_ge in E; lia).
        tauto.
      + unfold serve, route, play_quiz. rewrite handle_exceptions_run.
        unfold bind, get_json, Question_query, ret. fold rows cid prev.
        rewrite E. reflexivity. }
  destruct Hcand as (cands & Hcands & Hserve).
  pose proof (limit_1_order_by_random rand cands) as Hfirst.
  destruct (limit 1 (order_by_random rand cands)) as [|q l].
  - exists None. split; [exact Hserve|]. split; [discriminate|].
    split; [|reflexivity].
    intros _ q Hq Hel. subst cands.
    assert (Hin : q ∈ @nil Question.t) by (apply Hcands; auto).
    inversion Hin.
  - exists (Some (format q)). split; [exact Hserve|].
    apply Hcands in Hfirst as [Hq [Hprev Hcat]].
    split.
    + intros d [= <-]. cbn. split; [exact Hprev|]. split; [exact Hcat|].
      exists q. auto.
    + split; [discriminate|].
      intros Hnone. exfalso. apply (Hnone q Hq). split; assumption.
Qed.

(** The requests of the repository's tests on the sample store: after
    questions 20 and 22 only question 21 is left in category 1, after all
    three none is, and category 12345 has no question. *)
Example play_quiz_sample :
  fst (serve sample_rand (POST_quizzes (Some (mkQuizData 1 [20; 22]))) sample_db)
    = jsonify (QuizBody true
                 (Some (QuestionDict 21 "Who discovered penicillin?"
                          "Alexander Fleming" 1 3))) ∧
  fst (serve sample_rand (POST_quizzes (Some (mkQuizData 1 [20; 21; 22]))) sample_db)
    = jsonify (QuizBody true None) ∧
  fst (serve sample_rand (POST_quizzes (Some (mkQuizData 12345 [5]))) sample_db)
    = jsonify (QuizBody true None).
Proof. repeat split; vm_compute; reflexivity. Qed.

(** ** Creating a question *)

Lemma blank_cases (v : option string) :
  blank v ∨ ∃ s, v = Some s ∧ s ≠ "".
Proof.
  destruct v as [s|]; [|left; left; reflexivity].
  destruct (decide (s = "")) as [->|Hs].
  - left. right. reflexivity.
  - right. eauto.
Qed.

Lemma Category_query_get_run (ident : Z) (db : DB) :
  Category_query_get ident db =
    (Return (snd <$> list_find (λ c, Category.id c = ident)
                       (categories (session_view db))), db).
Proof. reflexivity. Qed.

Lemma Category_query_get_None (ident : Z) (db : DB) :
  ¬ category_exists (session_view db) ident →
  Category_query_get ident db = (Return None, db).
Proof.
  intros Hno. rewrite Category_query_get_run.
  assert (E : list_find (λ c, Category.id c = ident)
                (categories (session_view db)) = None).
  { apply find_by_key_None. intros c Hc Hid. apply Hno. exists c. auto. }
  rewrite E. reflexivity.
Qed.

Lemma Category_query_get_Some (ident : Z) (db : DB) :
  category_exists (session_view db) ident →
  ∃ c, Category_query_get ident db = (Return (Some c), db).
Proof.
  intros Hex. rewrite Category_query_get_run.
  destruct (find_by_key_is_Some Category.id ident _ Hex) as (i & c & E).
  rewrite E. exists c. reflexivity.
Qed.

(** The four outcomes of the handler on a parsed body, by the first test
    that decides. *)
Lemma create_question_blank (rand : nat → Z) (db : DB) (q a : option string)
    (category difficulty : option Z) :
  blank q ∨ blank a →
  serve rand (POST_questions (Some (mkForm (Some q) (Some a) category difficulty))) db
    = (unprocessable, session_rollback db).
Proof.
  intros Hblank.
  unfold serve, route, create_question. rewrite handle_exceptions_run.
  unfold bind, get_json, getitem, ret. cbn [form_question form_answer].
  destruct Hblank as [[->| ->]|[->| ->]]; cbn;
    repeat (case_bool_decide; cbn); try reflexivity; try congruence;
    match goal with |- context [match ?v with Some _ => _ | None => _ end] =>
      destruct v; reflexivity
    end.
Qed.

Lemma create_question_no_category (rand : nat → Z) (db : DB) (q a : option string)
    (category : Z) (difficulty : option Z) :
  ¬ category_exists (session_view db) category →
  serve rand (POST_questions
                (Some (mkForm (Some q) (Some a) (Some category) difficulty))) db
    = (unprocessable, session_rollback db).
Proof.
  intros Hno.
  destruct (blank_cases q) as [Hq|(question & -> & Hq)];
    [apply create_question_blank; auto|].
  destruct (blank_cases a) as [Ha|(answer & -> & Ha)];
    [apply create_question_blank; auto|].
  unfold serve, route, create_question. rewrite handle_exceptions_run.
  unfold bind, get_json, getitem, ret.
  cbn [form_question form_answer form_category].
  rewrite !bool_decide_eq_false_2 by congruence.
  rewrite (Category_query_get_None _ _ Hno). reflexivity.
Qed.

Lemma create_question_valid (rand : nat → Z) (db : DB) (question answer : string)
    (category difficulty : Z) :
  question ≠ "" → answer ≠ "" → category_exists (session_view db) category →
  serve rand (POST_questions
                (Some (mkForm (Some (Some question)) (Some (Some answer))
                         (Some category) (Some difficulty)))) db
    = (jsonify (SuccessBody true),
       {| committed :=
            {| questions := questions (session_view db) ++
                              [Question.mk (questions_id_seq db) question answer
                                 category difficulty];
               categories := categories (session_view db) |};
          pending := None;
          questions_id_seq := questions_id_seq db + 1 |}).
Proof.
  intros Hq Ha Hex.
  destruct (Category_query_get_Some _ _ Hex) as (c & E).
  unfold serve, route, create_question. rewrite handle_exceptions_run.
  unfold bind, get_json, getitem, ret.
  cbn [form_question form_answer form_category form_difficulty].
  rewrite !bool_decide_eq_false_2 by congruence.
  rewrite E. reflexivity.
Qed.

Lemma create_question_KeyError (rand : nat → Z) (db : DB) (form : Form) :
  reaches_missing_key (session_view db) form →
  serve rand (POST_questions (Some form)) db
    = (internal_server_error, session_rollback db).
Proof.
  destruct form as [fq fa fc fd]. unfold reaches_missing_key.
  cbn [form_question form_answer form_category form_difficulty].
  intros [->|[(q & -> & Hq & ->)|(q & a & -> & -> & Hq & Ha & Hc)]].
  - reflexivity.
  - unfold serve, route, create_question. rewrite handle_exceptions_run.
    unfold bind, get_json, getitem, ret. cbn [form_question form_answer].
    rewrite bool_decide_eq_false_2 by exact Hq. reflexivity.
  - destruct (blank_cases q) as [?|(question & -> & Hq')]; [contradiction|].
    destruct (blank_cases a) as [?|(answer & -> & Ha')]; [contradiction|].
    unfold serve, route, create_question. rewrite handle_exceptions_run.
    unfold bind, get_json, getitem, ret.
    cbn [form_question form_answer form_category form_difficulty].
    rewrite !bool_decide_eq_false_2 by congruence.
    destruct Hc as [->|(c & -> & Hex & ->)]; [reflexivity|].
    destruct (Category_query_get_Some _ _ Hex) as (c' & E).
    rewrite E. reflexivity.
Qed.

Lemma create_question_empty_question (rand : nat → Z) (db : DB)
    (fa : option (option string)) (fc fd : option Z) :
  serve rand (POST_questions (Some (mkForm (Some (Some "")) fa fc fd))) db
    = (unprocessable, session_rollback db).
Proof. reflexivity. Qed.

Lemma category_exists_cases (t : Tables) (ident : Z) :
  category_exists t ident ∨ ¬ category_exists t ident.
Proof.
  destruct (list_find (λ c, Category.id c = ident) (categories t))
    as [[i c]|] eqn:E.
  - left. exists c. eapply find_by_key_Some. exact E.
  - right. intros (c & Hc & Hid).
    rewrite find_by_key_None in E. exact (E c Hc Hid).
Qed.

(** C3. A creation request whose body has the four keys: it is answered
    422 when [question] or [answer] is empty or null, whatever the category
    (and before the category is even looked up); it is answered 422 when
    [category] is not the id of a category; otherwise one row is added to
    the questions, with the next id of the sequence (an id no question has
    yet), and the body of the 200 answer holds the success flag alone. *)
Theorem create_question_spec (rand : nat → Z) (db : DB) (q a : option string)
    (category difficulty : Z) :
  let t := session_view db in
  let form := mkForm (Some q) (Some a) (Some category) (Some difficulty) in
  (blank q ∨ blank a →
     serve rand (POST_questions (Some form)) db =
       ({| status := 422; json := ErrorBody false 422 "Unprocessable" |},
        session_rollback db) ∧
     ∀ fc fd, serve rand (POST_questions (Some (mkForm (Some q) (Some a) fc fd))) db =
                serve rand (POST_questions (Some form)) db) ∧
  (¬ category_exists t category →
     serve rand (POST_questions (Some form)) db =
       ({| status := 422; json := ErrorBody false 422 "Unprocessable" |},
        session_rollback db)) ∧
  (¬ blank q → ¬ blank a → category_exists t category →
     ∃ question answer,
       q = Some question ∧ a = Some answer ∧
       serve rand (POST_questions (Some form)) db =
         ({| status := 200; json := SuccessBody true |},
          {| committed :=
               {| questions := questions t ++
                                 [Question.mk (questions_id_seq db) question answer
                                    category difficulty];
                  categories := categories t |};
             pending := None;
             questions_id_seq := questions_id_seq db + 1 |}) ∧
       ((∀ r, r ∈ questions t → Question.id r < questions_id_seq db) →
          ¬ question_exists t (questions_id_seq db))).
Proof.
  intros t form. split; [|split].
  - intros Hblank. split.
    + apply create_question_blank. exact Hblank.
    + intros fc fd. unfold form. rewrite !create_question_blank by exact Hblank.
      reflexivity.
  - apply create_question_no_category.
  - intros Hq Ha Hex.
    destruct (blank_cases q) as [?|(question & -> & Hq')]; [contradiction|].
    destruct (blank_cases a) as [?|(answer & -> & Ha')]; [contradiction|].
    exists question, answer. split; [reflexivity|]. split; [reflexivity|]. split.
    + apply create_question_valid; assumption.
    + intros Hbelow (r & Hr & Hid). specialize (Hbelow r Hr). lia.
Qed.

(** On the sample store: an empty question, the category 20 of the
    repository's test (there is none), and its valid new question, which
    receives id 23. *)
Lemma create_question_spec_witness :
  fst (serve sample_rand
         (POST_questions (Some (mkForm (Some (Some "")) (Some (Some "New answer"))
                                  (Some 2) (Some 1)))) sample_db) = unprocessable ∧
  fst (serve sample_rand
         (POST_questions (Some (mkForm (Some (Some "Invalid question"))
                                  (Some (Some "Invalid answer"))
                                  (Some 20) (Some 1)))) sample_db) = unprocessable ∧
  serve sample_rand
    (POST_questions (Some (mkForm (Some (Some "New question"))
                             (Some (Some "New answer")) (Some 2) (Some 1)))) sample_db
    = (jsonify (SuccessBody true),
       {| committed :=
            {| questions := sample_questions ++
                              [Question.mk 23 "New question" "New answer" 2 1];
               categories := sample_categories |};
          pending := None;
          questions_id_seq := 24 |}).
Proof.
  split; [|split].
  - destruct (create_question_spec sample_rand sample_db (Some "")
                (Some "New answer") 2 1) as [H _].
    destruct H as [H _]; [left; right; reflexivity|].
    rewrite H. reflexivity.
  - destruct (create_question_spec sample_rand sample_db (Some "Invalid question")
                (Some "Invalid answer") 20 1) as (_ & H & _).
    rewrite H; [reflexivity|].
    intros (c & Hc & Hid). in_rows Hc; discriminate Hid.
  - destruct (create_question_spec sample_rand sample_db (Some "New question")
                (Some "New answer") 2 1) as (_ & _ & H).
    destruct H as (question & answer & [= <-] & [= <-] & H & _).
    + intros [?|?]; discriminate.
    + intros [?|?]; discriminate.
    + exists (Category.mk 2 "Art"). split; [is_row|reflexivity].
    + rewrite H. reflexivity.
Defined.

(** Not every body with a missing key is answered 500: a body that holds
    only an empty [question] is answered 422, by the first test of the
    validity check. *)
Lemma create_question_missing_key_not_always_500 :
  ¬ (∀ (rand : nat → Z) (db : DB) (form : Form),
       missing_key form →
       fst (serve rand (POST_questions (Some form)) db) = internal_server_error).
Proof.
  intros H.
  assert (Hmiss : missing_key (mkForm (Some (Some "")) None None None))
    by (right; left; reflexivity).
  specialize (H sample_rand sample_db _ Hmiss).
  vm_compute in H. discriminate H.
Qed.

(** C10, amended.  A creation request whose body misses a key is answered
    500 "Internal Server Error" when the handler comes to look up a
    missing key, and 422 "Unprocessable" when a test that comes before that
    lookup already refuses the body; in both cases nothing is written. *)
Theorem create_question_missing_key_spec (rand : nat → Z) (db : DB) (form : Form) :
  missing_key form →
  (reaches_missing_key (session_view db) form →
     serve rand (POST_questions (Some form)) db =
       ({| status := 500; json := ErrorBody false 500 "Internal Server Error" |},
        session_rollback db)) ∧
  (¬ reaches_missing_key (session_view db) form →
     serve rand (POST_questions (Some form)) db =
       ({| status := 422; json := ErrorBody false 422 "Unprocessable" |},
        session_rollback db)).
Proof.
  intros Hmiss. split; [apply create_question_KeyError|].
  intros Hnot. destruct form as [fq fa fc fd].
  unfold missing_key, reaches_missing_key in *.
  cbn [form_question form_answer form_category form_difficulty] in *.
  destruct fq as [q|]; [|exfalso; apply Hnot; left; reflexivity].
  destruct (decide (q = Some "")) as [->|Hq];
    [apply create_question_empty_question|].
  destruct fa as [a|]; [|exfalso; apply Hnot; right; left; eauto].
  destruct (blank_cases q) as [Hbq|(question & -> & Hq')];
    [apply create_question_blank; auto|].
  destruct (blank_cases a) as [Hba|(answer & -> & Ha')];
    [apply create_question_blank; auto|].
  assert (Hvq : ¬ blank (Some question)) by (intros [?|?]; congruence).
  assert (Hva : ¬ blank (Some answer)) by (intros [?|?]; congruence).
  destruct fc as [c|];
    [|exfalso; apply Hnot; right; right; eauto 10].
  destruct (category_exists_cases (session_view db) c) as [Hex|Hno];
    [|apply create_question_no_category; exact Hno].
  destruct fd as [d|].
  - exfalso. destruct Hmiss as [?|[?|[?|?]]]; discriminate.
  - exfalso. apply Hnot. right. right. eauto 12.
Qed.

(** On the sample store: a body without [difficulty] is answered 500 when
    the rest is valid, and 422 when its category does not exist. *)
Lemma create_question_missing_key_spec_witness :
  fst (serve sample_rand
         (POST_questions (Some (mkForm (Some (Some "New question"))
                                  (Some (Some "New answer")) (Some 2) None)))
         sample_db) = internal_server_error ∧
  fst (serve sample_rand
         (POST_questions (Some (mkForm (Some (Some "New question"))
                                  (Some (Some "New answer")) (Some 20) None)))
         sample_db) = unprocessable.
Proof.
  split.
  - destruct (create_question_missing_key_spec sample_rand sample_db
                (mkForm (Some (Some "New question")) (Some (Some "New answer"))
                   (Some 2) None)) as [H _].
    + right. right. right. reflexivity.
    + rewrite H; [reflexivity|]. right. right.
      exists (Some "New question"), (Some "New answer").
      split; [reflexivity|]. split; [reflexivity|].
      split; [intros [?|?]; discriminate|].
      split; [intros [?|?]; discriminate|].
      right. exists 2. split; [reflexivity|]. split; [|reflexivity].
      exists (Category.mk 2 "Art"). split; [is_row|reflexivity].
  - destruct (create_question_missing_key_spec sample_rand sample_db
                (mkForm (Some (Some "New question")) (Some (Some "New answer"))
                   (Some 20) None)) as [_ H].
    + right. right. right. reflexivity.
    + rewrite H; [reflexivity|].
      intros [Hq|[(q & _ & _ & Ha)|(q & a & _ & _ & _ & _ & [Hc|(c & Hc & Hex & _)])]];
        try discriminate.
      injection Hc as <-. destruct Hex as (cat & Hcat & Hid).
      in_rows Hcat; discriminate Hid.
Defined.

(** ** Error responses and the store *)

Ltac run_view :=
  unfold serve, route, get_categories, get_paginated_questions, delete_question,
    create_question, search_question, get_questions_by_category, play_quiz,
    handle_exceptions, paginate, Question_query_get, Category_query_get,
    Question_query_filter_ilike, Question_query, Category_query,
    Question_delete, Question_insert, get_json, getitem, abort, raise, bind, ret.

Ltac split_match :=
  repeat match goal with
         | |- context [match ?x with _ => _ end] =>
             lazymatch x with
             | context [match _ with _ => _ end] => fail
             | _ => destruct x eqn:?; cbn
             end
         end.

(** Every request is answered either by the 200 response of its view
    function or by one of the error handlers, and in the second case the
    store is the one before the request with the session rolled back. *)
Lemma serve_cases (rand : nat → Z) (r : Request) (db : DB) :
  status (fst (serve rand r db)) = 200 ∨
  (error_response (fst (serve rand r db)) ∧
   snd (serve rand r db) = session_rollback db).
Proof.
  unfold error_response.
  destruct r as [|page|question_id|[form|]|search_term|category_id|[data|]];
    run_view; cbn; split_match; cbn; auto 10.
Qed.

(** C8. A request that is answered with an error status (400, 404, 422 or
    500) leaves the store as it was before the request: what the store
    holds is unchanged, the sequence of ids too, and the session has no
    transaction left open, its pending writes being discarded. *)
Theorem error_response_leaves_store (rand : nat → Z) (r : Request) (db : DB) :
  let response := fst (serve rand r db) in
  let db' := snd (serve rand r db) in
  status response = 404 ∨ status response = 422 ∨
  status response = 400 ∨ status response = 500 →
  committed db' = committed db ∧
  pending db' = None ∧
  questions_id_seq db' = questions_id_seq db.
Proof.
  intros response db' Hstatus.
  destruct (serve_cases rand r db) as [H200|[_ Hdb]].
  - fold response in H200. rewrite H200 in Hstatus.
    destruct Hstatus as [?|[?|[?|?]]]; discriminate.
  - unfold db'. rewrite Hdb. repeat split.
Qed.

Lemma error_response_leaves_store_witness :
  fst (serve sample_rand (DELETE_question 9) dirty_db) = not_found ∧
  committed (snd (serve sample_rand (DELETE_question 9) dirty_db)) =
    committed dirty_db ∧
  pending (snd (serve sample_rand (DELETE_question 9) dirty_db)) = None ∧
  questions_id_seq (snd (serve sample_rand (DELETE_question 9) dirty_db)) = 23.
Proof.
  split; [reflexivity|].
  apply (error_response_leaves_store sample_rand (DELETE_question 9) dirty_db).
  left. reflexivity.
Defined.

(** ** Searching *)

Lemma lower_String (c : ascii) (s : string) :
  lower (String c s) = lower_char c :: lower s.
Proof. reflexivity. Qed.

Lemma lower_app (s1 s2 : string) :
  lower (s1 ++ s2) = (lower s1 ++ lower s2)%list.
Proof.
  unfold lower. induction s1 as [|c s1 IH]; [reflexivity|].
  cbn. rewrite <- IH. reflexivity.
Qed.

Lemma lower_char_idemp (c : ascii) : lower_char (lower_char c) = lower_char c.
Proof.
  destruct c as [[] [] [] [] [] [] [] []]; vm_compute; reflexivity.
Qed.

(** Lowering neither makes nor unmakes a character of the pattern
    language. *)
Lemma lower_char_special (c : ascii) :
  (Ascii.eqb (lower_char c) percent = Ascii.eqb c percent) ∧
  (Ascii.eqb (lower_char c) underscore = Ascii.eqb c underscore) ∧
  (Ascii.eqb (lower_char c) backslash = Ascii.eqb c backslash).
Proof.
  destruct c as [[] [] [] [] [] [] [] []]; vm_compute; repeat split.
Qed.

Lemma lower_string_of_list (l : list ascii) :
  lower (string_of_list_ascii l) = lower_char <$> l.
Proof.
  unfold lower. rewrite list_ascii_of_string_of_list_ascii. reflexivity.
Qed.

Lemma like_match_AnyRun_all (s : list ascii) : like_match [AnyRun] s = true.
Proof. induction s as [|c s IH]; [reflexivity|exact IH]. Qed.

Lemma like_match_AnyRun_cons (pattern : list like_token) (c : ascii)
    (s : list ascii) :
  like_match (AnyRun :: pattern) (c :: s) =
    like_match pattern (c :: s) || like_match (AnyRun :: pattern) s.
Proof. reflexivity. Qed.

Lemma like_match_AnyRun_nil (pattern : list like_token) :
  like_match (AnyRun :: pattern) [] = like_match pattern [].
Proof. cbn. apply orb_false_r. Qed.

(** A run may be empty. *)
Lemma like_match_AnyRun_skip (pattern : list like_token) (s : list ascii) :
  like_match pattern s = true → like_match (AnyRun :: pattern) s = true.
Proof.
  intros H. destruct s as [|c s].
  - rewrite like_match_AnyRun_nil. exact H.
  - rewrite like_match_AnyRun_cons, H. reflexivity.
Qed.

(** A pattern starting with a run matches a text exactly when the rest of
    the pattern matches one of its suffixes. *)
Lemma like_match_AnyRun (pattern : list like_token) (s : list ascii) :
  like_match (AnyRun :: pattern) s = true ↔
  ∃ pre rest : list ascii, s = (pre ++ rest)%list ∧ like_match pattern rest = true.
Proof.
  induction s as [|c s IH].
  - rewrite like_match_AnyRun_nil. split.
    + intros H. exists [], []. auto.
    + intros (pre & rest & Hs & H). symmetry in Hs.
      apply app_eq_nil in Hs as [_ ->]. exact H.
  - rewrite like_match_AnyRun_cons, orb_true_iff, IH. split.
    + intros [H|(pre & rest & -> & H)].
      * exists [], (c :: s). auto.
      * exists (c :: pre), rest. auto.
    + intros (pre & rest & Hs & H). destruct pre as [|c' pre].
      * left. cbn in Hs. subst rest. exact H.
      * right. injection Hs as -> ->. eauto.
Qed.

Lemma like_match_expand (tokens : list like_token) :
  like_match tokens (expand tokens) = true.
Proof.
  induction tokens as [|[| |c] tokens IH]; cbn [expand].
  - reflexivity.
  - apply like_match_AnyRun_skip, IH.
  - exact IH.
  - cbn. rewrite Ascii.eqb_refl. exact IH.
Qed.

Lemma closes_nil : closes [].
Proof.
  exists [AnyRun]. split; [reflexivity|]. split; [reflexivity|].
  split; [|intros _; constructor].
  intros [H|H]; inversion H.
Qed.

Lemma closes_backslash : closes [backslash].
Proof.
  exists [Literal percent]. split; [reflexivity|]. split; [cbn; lia|].
  split.
  - intros [H|H]; apply list_elem_of_singleton in H; discriminate H.
  - intros _. repeat constructor.
Qed.

Lemma closes_escaped (d : ascii) (s : list ascii) :
  closes s → closes (backslash :: d :: s).
Proof.
  intros (tokens & Ht & Hle & _ & Hlow).
  exists (Literal d :: tokens). split; [|split; [|split]].
  - cbn. cbn in Ht. rewrite Ht. reflexivity.
  - cbn. destruct (Ascii.eqb d underscore); lia.
  - intros _. cbn. destruct (Ascii.eqb d underscore); lia.
  - intros H. apply Forall_cons in H as [_ H]. apply Forall_cons in H as [Hd H].
    cbn. constructor; auto.
Qed.

Lemma closes_cons (c : ascii) (s : list ascii) :
  c ≠ backslash → closes s → closes (c :: s).
Proof.
  intros Hc (tokens & Ht & Hle & Hlt & Hlow).
  assert (Eb : Ascii.eqb c backslash = false) by (apply Ascii.eqb_neq; exact Hc).
  destruct (Ascii.eqb c percent) eqn:Ep; [|destruct (Ascii.eqb c underscore) eqn:Eu].
  - exists (AnyRun :: tokens). split; [|split; [|split]].
    + cbn [app like_tokens]. rewrite Ep, Ht. reflexivity.
    + cbn. destruct (Ascii.eqb c underscore); lia.
    + intros _. cbn. destruct (Ascii.eqb c underscore); lia.
    + intros H. apply Forall_cons in H as [_ H]. cbn. auto.
  - exists (AnyChar :: tokens). split; [|split; [|split]].
    + cbn [app like_tokens]. rewrite Ep, Eu, Ht. reflexivity.
    + cbn. rewrite Eu. lia.
    + intros _. cbn. rewrite Eu. lia.
    + intros H. apply Forall_cons in H as [_ H]. cbn.
      constructor; [reflexivity|auto].
  - exists (Literal c :: tokens). split; [|split; [|split]].
    + cbn [app like_tokens]. rewrite Ep, Eu, Eb, Ht. reflexivity.
    + cbn. rewrite Eu. lia.
    + intros H. cbn. rewrite Eu.
      assert (percent ∈ s ∨ underscore ∈ s) as Hs.
      { destruct H as [H|H]; apply elem_of_cons in H as [H|H]; auto.
        - subst c. rewrite Ascii.eqb_refl in Ep. discriminate.
        - subst c. rewrite Ascii.eqb_refl in Eu. discriminate. }
      specialize (Hlt Hs). lia.
    + intros H. apply Forall_cons in H as [Hc' H]. cbn. constructor; auto.
Qed.

Lemma closes_all (s : list ascii) : closes s.
Proof.
  enough (H : closes s ∧ ∀ c, closes (c :: s)) by apply H.
  induction s as [|d s [IH1 IH2]].
  - split; [apply closes_nil|].
    intros c. destruct (decide (c = backslash)) as [->|Hc].
    + apply closes_backslash.
    + apply closes_cons; [exact Hc|apply closes_nil].
  - split; [apply IH2|].
    intros c. destruct (decide (c = backslash)) as [->|Hc].
    + apply closes_escaped, IH1.
    + apply closes_cons; [exact Hc|apply IH2].
Qed.

Lemma weight_app (l1 l2 : list ascii) :
  weight (l1 ++ l2) = (weight l1 + weight l2)%nat.
Proof. induction l1 as [|c l1 IH]; cbn; [reflexivity|rewrite IH; lia]. Qed.

Lemma contains_weight (term text : list ascii) :
  contains term text → (weight term ≤ weight text)%nat.
Proof. intros (pre & post & ->). rewrite !weight_app. lia. Qed.

Lemma contains_elem (term text : list ascii) (c : ascii) :
  contains term text → c ∈ term → c ∈ text.
Proof.
  intros (pre & post & ->) Hc. rewrite !elem_of_app. auto.
Qed.

(** What the search handler computes: the pattern of a wrapped term is
    always accepted, and the answer lists the questions it matches. *)
Lemma search_question_run (rand : nat → Z) (db : DB) (term : string) :
  ∃ tokens,
    like_tokens (lower term ++ [percent]) = Some tokens ∧
    serve rand (POST_questions_search (Some term)) db =
      (let qs := filter (λ q, like_match (AnyRun :: tokens)
                                (lower (Question.question q)) = true)
                   (questions (session_view db)) in
       jsonify (SearchBody true (length qs) (format <$> qs)),
       session_rollback db).
Proof.
  destruct (closes_all (lower term)) as (tokens & Ht & _).
  exists tokens. split; [exact Ht|].
  unfold serve, route, search_question. rewrite handle_exceptions_run.
  unfold bind, Question_query_filter_ilike, Question_query, ret.
  change (default "" (Some term)) with term.
  assert (E : like_tokens (lower ("%" ++ term ++ "%")) = Some (AnyRun :: tokens)).
  { rewrite !lower_app. change (lower "%") with [percent].
    cbn [app like_tokens]. change (Ascii.eqb percent percent) with true.
    cbn match. rewrite Ht. reflexivity. }
  rewrite E. reflexivity.
Qed.

Lemma filter_all {A} (P : A → Prop) `{!∀ x, Decision (P x)} (l : list A) :
  (∀ x, P x) → filter P l = l.
Proof.
  intros HP. induction l as [|x l IH]; [reflexivity|].
  rewrite filter_cons_True by apply HP. rewrite IH. reflexivity.
Qed.

Lemma contains_lower (term text : list ascii) :
  contains term text → contains (lower_char <$> term) (lower_char <$> text).
Proof.
  intros (pre & post & ->). exists (lower_char <$> pre), (lower_char <$> post).
  rewrite !fmap_app. reflexivity.
Qed.

Lemma lowered_fmap (l : list ascii) : Forall lowered l → lower_char <$> l = l.
Proof.
  induction 1 as [|c l Hc _ IH]; [reflexivity|].
  cbn. rewrite Hc, IH. reflexivity.
Qed.

Lemma lower_lowered (s : string) : Forall lowered (lower s).
Proof.
  unfold lower. apply Forall_fmap, Forall_forall. intros c _.
  apply lower_char_idemp.
Qed.

Lemma has_wildcard_lower (term : string) :
  has_wildcard term → percent ∈ lower term ∨ underscore ∈ lower term.
Proof.
  unfold has_wildcard, lower.
  intros [H|H]; [left|right];
    apply (list_elem_of_fmap_2 lower_char) in H; exact H.
Qed.

(** C9. The term goes into the pattern as it is, so that its wildcards are
    at work.  The term "%" selects every question of the store; and for
    every term that holds a [%] or a [_] there is a text that does not
    contain the term, with or without regard to case, and yet every question
    with that text is among the questions the search returns. *)
Theorem search_question_wildcards :
  (∀ (rand : nat → Z) (db : DB),
     serve rand (POST_questions_search (Some "%")) db =
       (jsonify (SearchBody true (length (questions (session_view db)))
                   (format <$> questions (session_view db))),
        session_rollback db)) ∧
  (∀ term : string,
     has_wildcard term →
     ∃ text : string,
       ¬ icontains term text ∧
       ¬ contains (list_ascii_of_string term) (list_ascii_of_string text) ∧
       ∀ (rand : nat → Z) (db : DB),
       ∃ qs : list Question.t,
         serve rand (POST_questions_search (Some term)) db =
           (jsonify (SearchBody true (length qs) (format <$> qs)),
            session_rollback db) ∧
         ∀ q, q ∈ questions (session_view db) →
              Question.question q = text → q ∈ qs).
Proof.
  split.
  - intros rand db.
    destruct (search_question_run rand db "%") as (tokens & Ht & Hs).
    injection Ht as <-. rewrite Hs. cbv zeta.
    rewrite filter_all; [reflexivity|].
    intros q. do 2 apply like_match_AnyRun_skip. apply like_match_AnyRun_all.
  - intros term Hwild.
    destruct (closes_all (lower term)) as (tokens & Ht & _ & Hlt & Hlow).
    specialize (Hlt (has_wildcard_lower term Hwild)).
    specialize (Hlow (lower_lowered term)).
    set (text := string_of_list_ascii (expand tokens)).
    assert (Htext : lower text = expand tokens).
    { unfold text. rewrite lower_string_of_list. apply lowered_fmap, Hlow. }
    assert (Hnot : ¬ icontains term text).
    { unfold icontains. rewrite Htext. intros Hc.
      apply contains_weight in Hc. lia. }
    exists text. split; [exact Hnot|]. split.
    + intros Hc. apply Hnot. apply contains_lower in Hc. exact Hc.
    + intros rand db.
      destruct (search_question_run rand db term) as (tokens' & Ht' & Hs).
      rewrite Ht in Ht'. injection Ht' as <-.
      eexists. split; [exact Hs|].
      intros q Hq Hqt. apply list_elem_of_filter. split; [|exact Hq].
      rewrite Hqt, Htext. apply like_match_AnyRun_skip, like_match_expand.
Qed.

(** For the term "_": the text "x" does not contain it, and a question
    whose text is "x" is returned. *)
Lemma search_question_wildcards_witness :
  ∃ text : string,
    ¬ icontains "_" text ∧
    ∀ q, Question.question q = text →
      ∃ qs, fst (serve sample_rand (POST_questions_search (Some "_"))
                   {| committed := {| questions := [q]; categories := [] |};
                      pending := None; questions_id_seq := 1 |}) =
              jsonify (SearchBody true (length qs) (format <$> qs)) ∧
            q ∈ qs.
Proof.
  destruct search_question_wildcards as [_ H].
  destruct (H "_") as (text & Hnot & _ & Hret).
  { right. apply list_elem_of_In. cbn. auto. }
  exists text. split; [exact Hnot|].
  intros q Hq.
  destruct (Hret sample_rand
              {| committed := {| questions := [q]; categories := [] |};
                 pending := None; questions_id_seq := 1 |}) as (qs & Hs & Hin).
  exists qs. rewrite Hs. split; [reflexivity|].
  apply Hin; [|exact Hq]. apply list_elem_of_In. cbn. auto.
Defined.

(** *** Terms without characters of the pattern language *)

Lemma like_tokens_ordinary (s : list ascii) :
  Forall ordinary s →
  like_tokens (s ++ [percent]) = Some ((Literal <$> s) ++ [AnyRun])%list.
Proof.
  induction 1 as [|c s (Hp & Hu & Hb) _ IH]; [reflexivity|].
  cbn [app like_tokens].
  apply Ascii.eqb_neq in Hp, Hu, Hb. rewrite Hp, Hu, Hb, IH. reflexivity.
Qed.

Lemma like_match_prefix (term s : list ascii) :
  like_match ((Literal <$> term) ++ [AnyRun])%list s = true ↔
  ∃ post : list ascii, s = (term ++ post)%list.
Proof.
  revert s. induction term as [|c term IH]; intros s.
  - cbn [fmap list_fmap app]. rewrite like_match_AnyRun_all.
    split; [intros _; exists s; reflexivity|reflexivity].
  - destruct s as [|c' s]; cbn.
    + split; [discriminate|]. intros (post & H). discriminate H.
    + rewrite andb_true_iff, Ascii.eqb_eq. fold (@fmap list _ _ _ Literal term).
      rewrite IH. split.
      * intros (-> & post & ->). exists post. reflexivity.
      * intros (post & H). injection H as -> ->. eauto.
Qed.

Lemma like_match_contains (term s : list ascii) :
  like_match (AnyRun :: (Literal <$> term) ++ [AnyRun])%list s = true ↔
  contains term s.
Proof.
  rewrite like_match_AnyRun. unfold contains. split.
  - intros (pre & rest & -> & H). apply like_match_prefix in H as (post & ->).
    eauto.
  - intros (pre & post & ->). exists pre, (term ++ post)%list.
    split; [reflexivity|]. apply like_match_prefix. eauto.
Qed.

Lemma plain_lower_ordinary (term : string) :
  plain term → Forall ordinary (lower term).
Proof.
  intros (Hp & Hu & Hb). unfold lower. apply Forall_fmap, Forall_forall.
  intros c Hc. unfold ordinary, compose.
  destruct (lower_char_special c) as (Ep & Eu & Eb).
  repeat split; intros E; rewrite E, Ascii.eqb_refl in *;
    symmetry in Ep, Eu, Eb;
    [apply Ascii.eqb_eq in Ep|apply Ascii.eqb_eq in Eu|apply Ascii.eqb_eq in Eb];
    subst c; contradiction.
Qed.


Lemma plain_empty : plain "".
Proof. repeat split; intros H; inversion H. Qed.

(** The empty term selects every question. *)
Lemma search_question_empty_term (rand : nat → Z) (db : DB) :
  serve rand (POST_questions_search (Some "")) db =
    (jsonify (SearchBody true (length (questions (session_view db)))
                (format <$> questions (session_view db))),
     session_rollback db).
Proof.
  destruct (search_question_run rand db "") as (tokens & Ht & Hs).
  injection Ht as <-. rewrite Hs. cbv zeta.
  rewrite filter_all; [reflexivity|].
  intros q. apply like_match_AnyRun_skip, like_match_AnyRun_all.
Qed.

Lemma not_elem_of_existsb (c : ascii) (l : list ascii) :
  existsb (Ascii.eqb c) l = false → c ∉ l.
Proof.
  intros E Hc. apply list_elem_of_In in Hc.
  assert (existsb (Ascii.eqb c) l = true); [|congruence].
  apply existsb_exists. exists c. split; [exact Hc|apply Ascii.eqb_refl].
Qed.

(** C5, at a term with a wildcard: on the sample store the search for
    "ci_y" returns the question about the Taj Mahal, whose text (it has
    "city") does not contain "ci_y", with or without regard to case. *)
Theorem search_question_underscore_sample :
  fst (serve sample_rand (POST_questions_search (Some "ci_y")) sample_db) =
    jsonify (SearchBody true 1
               [QuestionDict 15 "The Taj Mahal is located in which Indian city?"
                  "Agra" 3 2]) ∧
  ¬ icontains "ci_y" "The Taj Mahal is located in which Indian city?".
Proof.
  split; [vm_compute; reflexivity|].
  intros Hc. apply (contains_elem _ _ underscore) in Hc.
  - revert Hc. apply not_elem_of_existsb. vm_compute. reflexivity.
  - apply list_elem_of_In. cbn. tauto.
Qed.

(** The searches of the repository's tests on the sample store. *)
Example search_question_sample :
  fst (serve sample_rand (POST_questions_search (Some "Indian")) sample_db) =
    jsonify (SearchBody true 1
               [QuestionDict 15 "The Taj Mahal is located in which Indian city?"
                  "Agra" 3 2]) ∧
  fst (serve sample_rand (POST_questions_search (Some "blablabla")) sample_db) =
    jsonify (SearchBody true 0 []).
Proof. split; vm_compute; reflexivity. Qed.

(** ** What a request does to the store *)

Lemma delete_question_found (rand : nat → Z) (db : DB) (question_id : Z) :
  question_exists (session_view db) question_id →
  serve rand (DELETE_question question_id) db =
    (jsonify (DeletedBody true question_id),
     {| committed :=
          {| questions := filter (λ q, Question.id q ≠ question_id)
                            (questions (session_view db));
             categories := categories (session_view db) |};
        pending := None;
        questions_id_seq := questions_id_seq db |}).
Proof.
  intros Hex.
  destruct (find_by_key_is_Some Question.id question_id _ Hex) as (i & q & E).
  pose proof (find_by_key_Some _ _ _ _ _ E) as [_ Hid].
  unfold serve, route, delete_question. rewrite handle_exceptions_run.
  unfold bind, Question_query_get, Question_query, bind, ret.
  rewrite E. cbn. rewrite Hid. reflexivity.
Qed.

Lemma delete_question_missing (rand : nat → Z) (db : DB) (question_id : Z) :
  ¬ question_exists (session_view db) question_id →
  serve rand (DELETE_question question_id) db = (not_found, session_rollback db).
Proof.
  intros Hno.
  assert (E : list_find (λ q, Question.id q = question_id)
                (questions (session_view db)) = None).
  { apply find_by_key_None. intros q Hq Hid. apply Hno. exists q. auto. }
  unfold serve, route, delete_question. rewrite handle_exceptions_run.
  unfold bind, Question_query_get, Question_query, bind, ret.
  rewrite E. reflexivity.
Qed.

Lemma question_exists_cases (t : Tables) (ident : Z) :
  question_exists t ident ∨ ¬ question_exists t ident.
Proof.
  destruct (list_find (λ q, Question.id q = ident) (questions t))
    as [[i q]|] eqn:E.
  - left. exists q. eapply find_by_key_Some. exact E.
  - right. intros (q & Hq & Hid).
    rewrite find_by_key_None in E. exact (E q Hq Hid).
Qed.

(** A creation request either leaves the store alone or adds the row of
    a body that passed every check. *)
Lemma create_question_effect (rand : nat → Z) (db : DB) (body : option Form) :
  snd (serve rand (POST_questions body) db) = session_rollback db ∨
  ∃ question answer category difficulty,
    body = Some (mkForm (Some (Some question)) (Some (Some answer))
                   (Some category) (Some difficulty)) ∧
    question ≠ "" ∧ answer ≠ "" ∧ category_exists (session_view db) category ∧
    serve rand (POST_questions body) db =
      (jsonify (SuccessBody true),
       {| committed :=
            {| questions := questions (session_view db) ++
                              [Question.mk (questions_id_seq db) question answer
                                 category difficulty];
               categories := categories (session_view db) |};
          pending := None;
          questions_id_seq := questions_id_seq db + 1 |}).
Proof.
  destruct body as [[fq fa fc fd]|]; [|left; reflexivity].
  destruct fq as [q|]; [|left; reflexivity].
  destruct (decide (q = Some "")) as [->|Hq]; [left; reflexivity|].
  destruct fa as [a|].
  2: { left. rewrite create_question_KeyError; [reflexivity|].
       right. left. exists q. auto. }
  destruct (blank_cases q) as [Hbq|(question & -> & Hq')].
  { left. rewrite create_question_blank; auto. }
  destruct (blank_cases a) as [Hba|(answer & -> & Ha')].
  { left. rewrite create_question_blank; auto. }
  assert (Hvq : ¬ blank (Some question)) by (intros [?|?]; congruence).
  assert (Hva : ¬ blank (Some answer)) by (intros [?|?]; congruence).
  destruct fc as [category|].
  2: { left. rewrite create_question_KeyError; [reflexivity|].
       right. right. exists (Some question), (Some answer). auto 10. }
  destruct (category_exists_cases (session_view db) category) as [Hex|Hno].
  2: { left. rewrite create_question_no_category; [reflexivity|exact Hno]. }
  destruct fd as [difficulty|].
  2: { left. rewrite create_question_KeyError; [reflexivity|].
       right. right. exists (Some question), (Some answer).
       split; [reflexivity|]. split; [reflexivity|]. split; [exact Hvq|].
       split; [exact Hva|]. right. exists category. auto. }
  right. exists question, answer, category, difficulty.
  split; [reflexivity|]. split; [exact Hq'|]. split; [exact Ha'|].
  split; [exact Hex|]. apply create_question_valid; assumption.
Qed.

(** The requests that read only leave the store alone. *)
Lemma reads_only_rollback (rand : nat → Z) (r : Request) (db : DB) :
  reads_only r → snd (serve rand r db) = session_rollback db.
Proof.
  intros Hr.
  destruct (serve_cases rand r db) as [H|[_ H]]; [|exact H].
  destruct r as [|page|question_id|body|search_term|category_id|[data|]];
    try contradiction; revert H; run_view; cbn; split_match; cbn;
    intros; try reflexivity; discriminate.
Qed.

(** The three things a request can do to the store: nothing but ending
    the transaction; removing the questions of one id; adding one question
    that passed the validity check, under the next id of the sequence. *)
Lemma serve_effect (rand : nat → Z) (r : Request) (db : DB) :
  let t := session_view db in
  let db' := snd (serve rand r db) in
  db' = session_rollback db ∨
  (∃ question_id,
     r = DELETE_question question_id ∧ question_exists t question_id ∧
     db' = {| committed :=
                {| questions := filter (λ q, Question.id q ≠ question_id)
                                  (questions t);
                   categories := categories t |};
              pending := None;
              questions_id_seq := questions_id_seq db |}) ∨
  (∃ question answer category difficulty,
     question ≠ "" ∧ answer ≠ "" ∧ category_exists t category ∧
     db' = {| committed :=
                {| questions := questions t ++
                                  [Question.mk (questions_id_seq db) question
                                     answer category difficulty];
                   categories := categories t |};
              pending := None;
              questions_id_seq := questions_id_seq db + 1 |}).
Proof.
  intros t db'. subst db' t.
  destruct r as [|page|question_id|body|search_term|category_id|data];
    try (left; apply reads_only_rollback; exact I).
  - destruct (question_exists_cases (session_view db) question_id) as [Hex|Hno].
    + right. left. exists question_id.
      rewrite (delete_question_found _ _ _ Hex). auto.
    + left. rewrite (delete_question_missing _ _ _ Hno). reflexivity.
  - destruct (create_question_effect rand db body)
      as [H|(question & answer & category & difficulty & _ & Hq & Ha & Hex & H)].
    + left. exact H.
    + right. right. exists question, answer, category, difficulty.
      rewrite H. auto.
Qed.

Lemma serve_pending (rand : nat → Z) (r : Request) (db : DB) :
  pending (snd (serve rand r db)) = None.
Proof.
  destruct (serve_effect rand r db)
    as [H|[(k & _ & _ & H)|(q & a & c & d & _ & _ & _ & H)]];
    rewrite H; reflexivity.
Qed.

Lemma session_rollback_clean (db : DB) :
  pending db = None → session_rollback db = db.
Proof. destruct db as [t p n]. cbn. intros ->. reflexivity. Qed.

Lemma session_view_clean (db : DB) :
  pending db = None → session_view db = committed db.
Proof. unfold session_view. intros ->. reflexivity. Qed.

Lemma serve_all_pending (requests : list ((nat → Z) * Request)) (db : DB) :
  pending db = None → pending (snd (serve_all requests db)) = None.
Proof.
  revert db. induction requests as [|[rand r] rest IH]; intros db Hp;
    [exact Hp|].
  cbn [serve_all]. pose proof (serve_pending rand r db) as H.
  destruct (serve rand r db) as [resp db1]. cbn in H.
  specialize (IH db1 H). destruct (serve_all rest db1) as [resps db2].
  exact IH.
Qed.

(** A step of [serve_all]. *)
Lemma serve_all_cons (rand : nat → Z) (r : Request)
    (rest : list ((nat → Z) * Request)) (db : DB) :
  snd (serve_all ((rand, r) :: rest) db) =
    snd (serve_all rest (snd (serve rand r db))).
Proof.
  cbn [serve_all]. destruct (serve rand r db) as [resp db1]. cbn [snd].
  destruct (serve_all rest db1) as [resps db2]. reflexivity.
Qed.

(** An invariant of the store that every request keeps holds after any
    sequence of requests. *)
Lemma serve_all_invariant (P : DB → Prop) :
  (∀ rand r db, P db → P (snd (serve rand r db))) →
  ∀ requests db, P db → P (snd (serve_all requests db)).
Proof.
  intros Hstep requests.
  induction requests as [|[rand r] rest IH]; intros db HP; [exact HP|].
  rewrite serve_all_cons. apply IH, Hstep, HP.
Qed.

(** ** Extra properties: the session and the responses *)

(** X1. Whatever the request and whatever the session held before it,
    no transaction is open once the request is served, and this stays so
    over any sequence of requests. *)
Theorem serve_all_session_closed (requests : list ((nat → Z) * Request))
    (db : DB) :
  requests ≠ [] → pending (snd (serve_all requests db)) = None.
Proof.
  destruct requests as [|[rand r] rest]; [congruence|]. intros _.
  rewrite serve_all_cons. apply serve_all_pending, serve_pending.
Qed.

Lemma serve_all_session_closed_witness :
  pending dirty_db ≠ None ∧
  pending (snd (serve_all [(sample_rand, GET_categories);
                           (sample_rand, DELETE_question 9)] dirty_db)) = None.
Proof.
  split; [discriminate|].
  apply (serve_all_session_closed
           [(sample_rand, GET_categories); (sample_rand, DELETE_question 9)]
           dirty_db).
  discriminate.
Defined.


(** ** Extra properties: the categories *)

(** X3. The dictionary of [categories_to_dict] holds, under each id, the
    type of the last category of the list with that id (a later category
    overwrites an earlier one), and no other key. *)
Theorem categories_to_dict_last (cs : list Category.t) (ident : Z) :
  categories_to_dict cs !! ident =
    Category.type <$> last (filter (λ c, Category.id c = ident) cs).
Proof.
  induction cs as [|c cs IH] using rev_ind; [reflexivity|].
  rewrite categories_to_dict_snoc, filter_app.
  destruct (decide (Category.id c = ident)) as [<-|Hne].
  - rewrite lookup_insert_eq.
    rewrite (filter_cons_True _ c []) by reflexivity.
    rewrite filter_nil, last_snoc. reflexivity.
  - rewrite lookup_insert_ne by exact Hne.
    rewrite (filter_cons_False _ c []) by exact Hne.
    rewrite filter_nil, app_nil_r. exact IH.
Qed.

Lemma categories_to_dict_size (cs : list Category.t) :
  (size (categories_to_dict cs) ≤ length cs)%nat ∧
  (NoDup (Category.id <$> cs) → size (categories_to_dict cs) = length cs).
Proof.
  induction cs as [|c cs [IHle IHeq]] using rev_ind.
  - change (categories_to_dict []) with (∅ : gmap Z string).
    rewrite map_size_empty. split; [reflexivity|intros _; reflexivity].
  - rewrite categories_to_dict_snoc, length_app. cbn [length]. split.
    + pose proof (map_size_insert (Category.id c) (Category.type c)
                    (categories_to_dict cs)) as H.
      destruct (categories_to_dict cs !! Category.id c); cbn in H; lia.
    + intros Hnd. rewrite fmap_app in Hnd.
      apply NoDup_app in Hnd as (Hnd & Hfresh & _).
      rewrite map_size_insert_None, (IHeq Hnd); [lia|].
      apply categories_to_dict_None. intros c' Hc' E.
      apply (Hfresh (Category.id c')).
      * apply list_elem_of_fmap_2. exact Hc'.
      * rewrite E. apply list_elem_of_singleton. reflexivity.
Qed.

Lemma categories_to_dict_is_Some (cs : list Category.t) (c : Category.t) :
  c ∈ cs → is_Some (categories_to_dict cs !! Category.id c).
Proof.
  induction cs as [|x cs IH] using rev_ind; intros Hc; [inversion Hc|].
  rewrite categories_to_dict_snoc.
  destruct (decide (Category.id x = Category.id c)) as [E|Hne].
  - rewrite E, lookup_insert_eq. eexists. reflexivity.
  - rewrite lookup_insert_ne by exact Hne. apply IH.
    apply elem_of_app in Hc as [Hc|Hc]; [exact Hc|].
    apply list_elem_of_singleton in Hc. subst x. contradiction.
Qed.

(** X4. The list of the categories is always answered 200;
    [total_categories] counts the rows, every row has its id as a key of
    [categories], and the dictionary has no more entries than
    [total_categories], as many when the ids are unique. *)
Theorem get_categories_spec (rand : nat → Z) (db : DB) :
  let cs := categories (session_view db) in
  ∃ d : gmap Z string,
    serve rand GET_categories db =
      ({| status := 200; json := CategoriesBody true (length cs) d |},
       session_rollback db) ∧
    (∀ c, c ∈ cs → is_Some (d !! Category.id c)) ∧
    (∀ ident, (∀ c, c ∈ cs → Category.id c ≠ ident) → d !! ident = None) ∧
    (size d ≤ length cs)%nat ∧
    (NoDup (Category.id <$> cs) →
       size d = length cs ∧
       ∀ c, c ∈ cs → d !! Category.id c = Some (Category.type c)).
Proof.
  intros cs. exists (categories_to_dict cs).
  split; [reflexivity|]. split; [|split; [|split]].
  - intros c Hc. apply categories_to_dict_is_Some, Hc.
  - intros ident Hno. apply categories_to_dict_None, Hno.
  - apply categories_to_dict_size.
  - intros Hnd. split; [apply categories_to_dict_size, Hnd|].
    intros c Hc. apply categories_to_dict_lookup; assumption.
Qed.

(** X5. With unique category ids, ordering the categories by id before
    building the dictionary changes nothing: the question listing carries
    the same [categories] as the list of the categories. *)
Theorem categories_to_dict_order_by (cs : list Category.t) :
  NoDup (Category.id <$> cs) →
  categories_to_dict (order_by Category.id cs) = categories_to_dict cs.
Proof.
  intros Hnd.
  assert (Hp : order_by Category.id cs ≡ₚ cs) by apply order_by_Permutation.
  assert (Hnd' : NoDup (Category.id <$> order_by Category.id cs)).
  { rewrite Hp. exact Hnd. }
  apply map_eq. intros ident.
  destruct (list_find (λ c, Category.id c = ident) cs) as [[i c]|] eqn:E.
  - apply find_by_key_Some in E as [Hc <-].
    rewrite !categories_to_dict_lookup; auto.
    rewrite Hp. exact Hc.
  - rewrite find_by_key_None in E.
    rewrite !categories_to_dict_None; auto.
    intros c Hc. apply E. rewrite <- Hp. exact Hc.
Qed.

Lemma sample_categories_NoDup : NoDup (Category.id <$> sample_categories).
Proof.
  cbn. repeat (apply NoDup_cons; split;
               [intros H; apply list_elem_of_In in H; cbn in H;
                intuition discriminate|]).
  apply NoDup_nil. exact I.
Qed.

Lemma categories_to_dict_order_by_witness :
  ∃ d, json (fst (serve sample_rand GET_categories sample_db)) =
         CategoriesBody true 3 d ∧
       ∃ n qs, json (fst (serve sample_rand (GET_questions None) sample_db)) =
                 QuestionPageBody true n qs d.
Proof.
  exists (categories_to_dict sample_categories). split; [reflexivity|].
  eexists _, _.
  rewrite <- (categories_to_dict_order_by sample_categories
                sample_categories_NoDup).
  reflexivity.
Defined.

Lemma get_categories_spec_witness :
  ∃ d : gmap Z string,
    fst (serve sample_rand GET_categories sample_db) =
      jsonify (CategoriesBody true 3 d) ∧
    size d = 3%nat ∧ d !! 1 = Some "Science".
Proof.
  destruct (get_categories_spec sample_rand sample_db)
    as (d & Hs & _ & _ & _ & Hnd).
  destruct (Hnd sample_categories_NoDup) as [Hsize Hlook].
  exists d. rewrite Hs. split; [reflexivity|]. split; [exact Hsize|].
  apply (Hlook (Category.mk 1 "Science")). is_row.
Defined.

(** ** Extra properties: the pages of the listing *)

(** The listing, for a page from 1 on. *)
Lemma get_paginated_questions_run (rand : nat → Z) (db : DB) (page : Z) :
  1 ≤ page →
  serve rand (GET_questions (Some page)) db =
    let items := take 10 (drop (Z.to_nat ((page - 1) * 10))
                            (order_by Question.id (questions (session_view db)))) in
    if is_empty items && negb (page =? 1)
    then (not_found, session_rollback db)
    else (jsonify (QuestionPageBody true (length items) (format <$> items)
                     (categories_to_dict
                        (order_by Category.id (categories (session_view db))))),
          session_rollback db).
Proof.
  intros Hpage.
  unfold serve, route, get_paginated_questions.
  rewrite handle_exceptions_run.
  change (default 1 (Some page)) with page.
  unfold bind, Question_query.
  rewrite paginate_error_out by exact Hpage. cbv zeta.
  destruct (is_empty _ && negb (page =? 1)); reflexivity.
Qed.

(** X6. A page number below 1 is answered 404, whatever the store holds;
    nothing is written. *)
Theorem get_paginated_questions_below_1 (rand : nat → Z) (db : DB) (page : Z) :
  page < 1 →
  serve rand (GET_questions (Some page)) db =
    ({| status := 404; json := ErrorBody false 404 "Resource Not Found" |},
     session_rollback db).
Proof.
  intros Hpage.
  unfold serve, route, get_paginated_questions.
  rewrite handle_exceptions_run.
  change (default 1 (Some page)) with page.
  unfold bind, Question_query, paginate, bind.
  apply Z.ltb_lt in Hpage. rewrite Hpage. reflexivity.
Qed.

Lemma get_paginated_questions_below_1_witness :
  fst (serve sample_rand (GET_questions (Some 0)) sample_db) = not_found ∧
  fst (serve sample_rand (GET_questions (Some (-3))) sample_db) = not_found.
Proof.
  split.
  - rewrite (get_paginated_questions_below_1 sample_rand sample_db 0); [|lia].
    reflexivity.
  - rewrite (get_paginated_questions_below_1 sample_rand sample_db (-3)); [|lia].
    reflexivity.
Defined.



(** The question at position [i] of the questions in ascending order of
    id is served at position [i mod 10] of page [i / 10 + 1]. *)
Lemma listing_position (rand : nat → Z) (db : DB) (i : nat) (q : Question.t) :
  order_by Question.id (questions (session_view db)) !! i = Some q →
  ∃ (n : nat) (qs : list question_dict) (d : gmap Z string),
    serve rand (GET_questions (Some (Z.of_nat (i / 10) + 1))) db =
      ({| status := 200; json := QuestionPageBody true n qs d |},
       session_rollback db) ∧
    qs !! (i mod 10)%nat = Some (format q).
Proof.
  intros Hi.
  set (ordered := order_by Question.id (questions (session_view db))) in *.
  set (page := Z.of_nat (i / 10) + 1).
  assert (Hoff : Z.to_nat ((page - 1) * 10) = (i / 10 * 10)%nat)
    by (unfold page; lia).
  assert (Hlook : take 10 (drop (Z.to_nat ((page - 1) * 10)) ordered)
                    !! (i mod 10)%nat = Some q).
  { rewrite lookup_take_lt by (apply Nat.mod_upper_bound; lia).
    rewrite lookup_drop, Hoff.
    replace (i / 10 * 10 + i mod 10)%nat with i; [exact Hi|].
    rewrite (Nat.div_mod_eq i 10) at 1. lia. }
  set (items := take 10 (drop (Z.to_nat ((page - 1) * 10)) ordered)) in *.
  exists (length items), (format <$> items),
    (categories_to_dict (order_by Category.id (categories (session_view db)))).
  split.
  - rewrite get_paginated_questions_run by (unfold page; lia). cbv zeta.
    fold ordered. fold items.
    destruct items; [rewrite lookup_nil in Hlook; discriminate|].
    reflexivity.
  - rewrite list_lookup_fmap, Hlook. reflexivity.
Qed.

(** X8. Paging reaches every question.  Each question of the store has a
    position [i] among the questions in ascending order of id, and it is
    served at position [i mod 10] of page [i / 10 + 1]. *)
Theorem get_paginated_questions_reaches (rand : nat → Z) (db : DB)
    (q : Question.t) :
  q ∈ questions (session_view db) →
  ∃ (i n : nat) (qs : list question_dict) (d : gmap Z string),
    order_by Question.id (questions (session_view db)) !! i = Some q ∧
    serve rand (GET_questions (Some (Z.of_nat (i / 10) + 1))) db =
      ({| status := 200; json := QuestionPageBody true n qs d |},
       session_rollback db) ∧
    qs !! (i mod 10)%nat = Some (format q).
Proof.
  intros Hq.
  rewrite <- (order_by_Permutation Question.id) in Hq.
  apply list_elem_of_lookup in Hq as (i & Hi).
  destruct (listing_position rand db i q Hi) as (n & qs & d & Hs & Hpos).
  exists i, n, qs, d. auto.
Qed.

Lemma get_paginated_questions_reaches_witness :
  ∃ i n qs d,
    fst (serve sample_rand (GET_questions (Some (Z.of_nat (i / 10) + 1)))
           sample_db) = jsonify (QuestionPageBody true n qs d) ∧
    qs !! (i mod 10)%nat =
      Some (QuestionDict 22
              "Hematology is a branch of medicine involving the study of what?"
              "Blood" 1 4).
Proof.
  destruct (get_paginated_questions_reaches sample_rand sample_db
              (Question.mk 22
                 "Hematology is a branch of medicine involving the study of what?"
                 "Blood" 1 4)) as (i & n & qs & d & _ & Hs & Hq).
  { is_row. }
  exists i, n, qs, d. rewrite Hs. split; [reflexivity|exact Hq].
Defined.

(** ** Extra properties: reading requests *)

(** X9. The requests other than deletion and creation (the three GET
    routes, the search and the quiz) never change the store: from a store
    with no transaction open they leave the very same store. *)
Theorem reads_only_same_store (rand : nat → Z) (r : Request) (db : DB) :
  reads_only r → pending db = None → snd (serve rand r db) = db.
Proof.
  intros Hr Hp. rewrite reads_only_rollback by exact Hr.
  apply session_rollback_clean, Hp.
Qed.

Lemma reads_only_same_store_witness :
  snd (serve sample_rand (POST_quizzes (Some (mkQuizData 1 [20]))) sample_db)
    = sample_db ∧
  snd (serve sample_rand (POST_questions_search (Some "lake")) sample_db)
    = sample_db.
Proof.
  split; apply reads_only_same_store; try exact I; reflexivity.
Defined.

(** ** Extra properties: the search *)


(** X11. The search does not regard the case of the letters of the term:
    two terms that differ only in case are answered alike. *)
Theorem search_question_case_insensitive (rand : nat → Z) (db : DB)
    (term1 term2 : string) :
  lower term1 = lower term2 →
  serve rand (POST_questions_search (Some term1)) db =
    serve rand (POST_questions_search (Some term2)) db.
Proof.
  intros Hl.
  destruct (search_question_run rand db term1) as (tokens1 & Ht1 & ->).
  destruct (search_question_run rand db term2) as (tokens2 & Ht2 & ->).
  rewrite Hl, Ht2 in Ht1. injection Ht1 as ->. reflexivity.
Qed.

Lemma search_question_case_insensitive_witness :
  serve sample_rand (POST_questions_search (Some "TAJ mahal")) sample_db =
    serve sample_rand (POST_questions_search (Some "taj MAHAL")) sample_db ∧
  ∃ qs, json (fst (serve sample_rand (POST_questions_search (Some "TAJ mahal"))
                     sample_db)) = SearchBody true 1 qs.
Proof.
  split.
  - apply search_question_case_insensitive. reflexivity.
  - eexists. vm_compute. reflexivity.
Defined.

(** ** Extra properties: the quiz *)

Lemma play_quiz_run (rand : nat → Z) (db : DB) (data : QuizData) :
  serve rand (POST_quizzes (Some data)) db =
    (jsonify (QuizBody true
                match limit 1 (order_by_random rand
                                 (quiz_candidates data
                                    (questions (session_view db)))) with
                | [] => None
                | q :: _ => Some (format q)
                end),
     session_rollback db).
Proof.
  unfold serve, route, play_quiz. rewrite handle_exceptions_run.
  unfold bind, get_json, Question_query, ret, quiz_candidates. cbn [fst snd].
  destruct (quiz_category_id data >? 0); reflexivity.
Qed.

Lemma elem_of_quiz_candidates (data : QuizData) (rows : list Question.t)
    (q : Question.t) :
  q ∈ quiz_candidates data rows ↔ q ∈ rows ∧ eligible data q.
Proof.
  unfold quiz_candidates, eligible, not_in.
  destruct (quiz_category_id data >? 0) eqn:E; rewrite list_elem_of_filter.
  - apply Z.gtb_lt in E. tauto.
  - assert (¬ 0 < quiz_category_id data)
      by (rewrite Z.gtb_ltb in E; apply Z.ltb_ge in E; lia).
    tauto.
Qed.

(** The first row of an ordering is the one that alone drew the least
    value. *)
Lemma order_by_random_favour {A} (rows : list A) (i : nat) (x : A) :
  rows !! i = Some x →
  ∃ rest, order_by_random (favour i) rows = x :: rest.
Proof.
  intros Hi. unfold order_by_random.
  set (keyed := imap (λ j r, (favour i j, r)) rows).
  pose proof (order_by_Permutation (@fst Z A) keyed) as Hp.
  pose proof (order_by_ascending (@fst Z A) keyed) as Hs.
  assert (Hx : (0, x) ∈ keyed).
  { apply list_elem_of_lookup. exists i. unfold keyed.
    rewrite list_lookup_imap, Hi. cbn. unfold favour.
    rewrite Nat.eqb_refl. reflexivity. }
  assert (Hkeys : ∀ p, p ∈ keyed → p = (0, x) ∨ fst p = 1).
  { intros p Hp'. apply list_elem_of_lookup in Hp' as (j & Hj).
    unfold keyed in Hj. rewrite list_lookup_imap in Hj.
    destruct (rows !! j) as [y|] eqn:Ej; [|discriminate].
    cbn in Hj. injection Hj as <-. unfold favour.
    destruct (j =? i)%nat eqn:E.
    - apply Nat.eqb_eq in E. subst j. left. congruence.
    - right. reflexivity. }
  destruct (order_by fst keyed) as [|p sorted] eqn:E.
  - exfalso. rewrite <- Hp in Hx. inversion Hx.
  - exists (snd <$> sorted). cbn. f_equal.
    assert (Hp0 : p ∈ keyed) by (rewrite <- Hp; left).
    destruct (Hkeys p Hp0) as [->|Hp1]; [reflexivity|].
    exfalso. rewrite <- Hp in Hx.
    apply elem_of_cons in Hx as [Hx|Hx].
    + subst p. discriminate Hp1.
    + apply StronglySorted_inv in Hs as [_ Hall].
      rewrite Forall_forall in Hall. specialize (Hall _ Hx).
      cbn in Hall. lia.
Qed.

(** X12. No eligible question is left out by the draw: for each question of
    the store that is eligible for a quiz request there is a draw of the
    random source for which that question is the one returned. *)
Theorem play_quiz_reachable (db : DB) (data : QuizData) (q : Question.t) :
  q ∈ questions (session_view db) → eligible data q →
  ∃ rand : nat → Z,
    serve rand (POST_quizzes (Some data)) db =
      ({| status := 200; json := QuizBody true (Some (format q)) |},
       session_rollback db).
Proof.
  intros Hq Hel.
  assert (Hc : q ∈ quiz_candidates data (questions (session_view db)))
    by (apply elem_of_quiz_candidates; auto).
  apply list_elem_of_lookup in Hc as (i & Hi).
  exists (favour i). rewrite play_quiz_run.
  destruct (order_by_random_favour _ i q Hi) as (rest & ->). reflexivity.
Qed.

Lemma play_quiz_reachable_witness :
  ∃ rand : nat → Z,
    fst (serve rand (POST_quizzes (Some (mkQuizData 1 [21]))) sample_db) =
      jsonify (QuizBody true
                 (Some (QuestionDict 22
                          "Hematology is a branch of medicine involving the study of what?"
                          "Blood" 1 4))).
Proof.
  destruct (play_quiz_reachable sample_db (mkQuizData 1 [21])
              (Question.mk 22
                 "Hematology is a branch of medicine involving the study of what?"
                 "Blood" 1 4)) as (rand & H).
  - is_row.
  - split; [|reflexivity]. cbn. intros Hin. in_rows Hin. discriminate Hin.
  - exists rand. rewrite H. reflexivity.
Defined.

(** ** Extra properties: creating and deleting *)

Lemma filter_all_elem {A} (P : A → Prop) `{!∀ x, Decision (P x)} (l : list A) :
  (∀ x, x ∈ l → P x) → filter P l = l.
Proof.
  induction l as [|x l IH]; intros HP; [reflexivity|].
  rewrite filter_cons_True by (apply HP; left).
  rewrite IH; [reflexivity|]. intros y Hy. apply HP. right. exact Hy.
Qed.

Lemma get_questions_by_category_run (rand : nat → Z) (db : DB) (category_id : Z) :
  category_exists (session_view db) category_id →
  ∃ c, c ∈ categories (session_view db) ∧ Category.id c = category_id ∧
    serve rand (GET_category_questions category_id) db =
      (let qs := filter (λ q, Question.category q = category_id)
                   (questions (session_view db)) in
       jsonify (CategoryQuestionsBody true (length qs) (format <$> qs)
                  (Category.type c)),
       session_rollback db).
Proof.
  intros Hex.
  destruct (find_by_key_is_Some Category.id category_id _ Hex) as (i & c & E).
  pose proof (find_by_key_Some _ _ _ _ _ E) as [Hc Hid].
  exists c. split; [exact Hc|]. split; [exact Hid|].
  unfold serve, route, get_questions_by_category. rewrite handle_exceptions_run.
  unfold bind, Category_query_get, Category_query, Question_query, bind, ret.
  rewrite E. cbn. rewrite length_fmap. reflexivity.
Qed.

(** X13. A question that was created is served back with the values that
    were sent.  After a successful creation, the listing of its category
    ends with it, a search for a term without pattern characters that its
    text contains returns it, and it is on a page of the listing; its id is
    the one the sequence had in store. *)
Theorem create_question_round_trip (rand : nat → Z) (db : DB)
    (question answer : string) (category difficulty : Z) :
  question ≠ "" → answer ≠ "" → category_exists (session_view db) category →
  let db' := snd (serve rand
                    (POST_questions
                       (Some (mkForm (Some (Some question)) (Some (Some answer))
                                (Some category) (Some difficulty)))) db) in
  let created := QuestionDict (questions_id_seq db) question answer
                   category difficulty in
  (∃ n qs current_category,
     serve rand (GET_category_questions category) db' =
       ({| status := 200;
           json := CategoryQuestionsBody true n (qs ++ [created])
                     current_category |}, db')) ∧
  (∀ term, plain term → icontains term question →
     ∃ n qs,
       serve rand (POST_questions_search (Some term)) db' =
         ({| status := 200; json := SearchBody true n qs |}, db') ∧
       created ∈ qs) ∧
  (∃ page n qs d,
     serve rand (GET_questions (Some page)) db' =
       ({| status := 200; json := QuestionPageBody true n qs d |}, db') ∧
     created ∈ qs).
Proof.
  intros Hq Ha Hex db' created. subst db'.
  rewrite create_question_valid by assumption. cbn [snd].
  set (row := Question.mk (questions_id_seq db) question answer category
                difficulty).
  set (db' := {| committed := _; pending := None; questions_id_seq := _ |}).
  assert (Hroll : session_rollback db' = db') by reflexivity.
  assert (Hrow : row ∈ questions (session_view db')).
  { cbn. apply elem_of_app. right. left. }
  split; [|split].
  - destruct (get_questions_by_category_run rand db' category) as (c & _ & _ & Hs).
    { destruct Hex as (c & Hc & Hid). exists c. auto. }
    rewrite Hs, Hroll. cbv zeta.
    change (questions (session_view db'))
      with (questions (session_view db) ++ [row])%list.
    rewrite filter_app.
    rewrite (filter_cons_True _ row []) by reflexivity.
    rewrite filter_nil, fmap_app. eexists _, _, _. reflexivity.
  - intros term Hplain Hin.
    destruct (search_question_run rand db' term) as (tokens & Ht & Hs).
    rewrite (like_tokens_ordinary _ (plain_lower_ordinary _ Hplain)) in Ht.
    injection Ht as <-.
    eexists _, _. rewrite Hs, Hroll. split; [reflexivity|].
    apply (list_elem_of_fmap_2 format _ row).
    apply list_elem_of_filter. split; [|exact Hrow].
    apply like_match_contains. exact Hin.
  - rewrite <- (order_by_Permutation Question.id) in Hrow.
    apply list_elem_of_lookup in Hrow as (i & Hi).
    destruct (listing_position rand db' i row Hi) as (n & qs & d & Hs & Hpos).
    exists (Z.of_nat (i / 10) + 1), n, qs, d. rewrite Hs, Hroll.
    split; [reflexivity|].
    apply list_elem_of_lookup. exists (i mod 10)%nat. exact Hpos.
Qed.

Lemma create_question_round_trip_witness :
  let db' := snd (serve sample_rand
                    (POST_questions
                       (Some (mkForm (Some (Some "New question"))
                                (Some (Some "New answer")) (Some 2) (Some 1))))
                    sample_db) in
  ∃ n qs,
    fst (serve sample_rand (POST_questions_search (Some "new q")) db') =
      jsonify (SearchBody true n qs) ∧
    QuestionDict 23 "New question" "New answer" 2 1 ∈ qs.
Proof.
  destruct (create_question_round_trip sample_rand sample_db
              "New question" "New answer" 2 1) as (_ & Hsearch & _).
  - discriminate.
  - discriminate.
  - exists (Category.mk 2 "Art"). split; [is_row|reflexivity].
  - destruct (Hsearch "new q") as (n & qs & Hs & Hin).
    + repeat split; apply not_elem_of_existsb; reflexivity.
    + exists [], (list_ascii_of_string "uestion"). reflexivity.
    + exists n, qs. cbv zeta. rewrite Hs. split; [reflexivity|exact Hin].
Defined.

(** X14. Creating a question and then deleting the id it received gives the
    tables back as they were, provided no question already had the next id
    of the sequence; the sequence itself has moved on, so that the id is
    not given out again. *)
Theorem create_delete_round_trip (rand : nat → Z) (db : DB)
    (question answer : string) (category difficulty : Z) :
  question ≠ "" → answer ≠ "" → category_exists (session_view db) category →
  ¬ question_exists (session_view db) (questions_id_seq db) →
  let db1 := snd (serve rand
                    (POST_questions
                       (Some (mkForm (Some (Some question)) (Some (Some answer))
                                (Some category) (Some difficulty)))) db) in
  serve rand (DELETE_question (questions_id_seq db)) db1 =
    ({| status := 200; json := DeletedBody true (questions_id_seq db) |},
     {| committed := session_view db;
        pending := None;
        questions_id_seq := questions_id_seq db + 1 |}).
Proof.
  intros Hq Ha Hex Hfresh db1. subst db1.
  rewrite create_question_valid by assumption. cbn [snd].
  rewrite delete_question_found.
  - cbn [session_view default pending committed questions categories
           questions_id_seq].
    rewrite filter_app.
    rewrite (filter_cons_False _ _ []) by (cbn; intros H; apply H; reflexivity).
    rewrite filter_nil, app_nil_r.
    rewrite filter_all_elem.
    + destruct (session_view db). reflexivity.
    + intros r Hr Hid. apply Hfresh. exists r. auto.
  - eexists. split; [apply elem_of_app; right; left|reflexivity].
Qed.

Lemma create_delete_round_trip_witness :
  serve sample_rand (DELETE_question 23)
    (snd (serve sample_rand
            (POST_questions
               (Some (mkForm (Some (Some "New question"))
                        (Some (Some "New answer")) (Some 2) (Some 1))))
            sample_db)) =
    (jsonify (DeletedBody true 23),
     {| committed := committed sample_db; pending := None;
        questions_id_seq := 24 |}).
Proof.
  apply (create_delete_round_trip sample_rand sample_db
           "New question" "New answer" 2 1).
  - discriminate.
  - discriminate.
  - exists (Category.mk 2 "Art"). split; [is_row|reflexivity].
  - intros (q & Hq & Hid). in_rows Hq; discriminate Hid.
Defined.

Lemma filter_other_length {A} (key : A → Z) (ident : Z) (rows : list A) :
  NoDup (key <$> rows) → (∃ r, r ∈ rows ∧ key r = ident) →
  S (length (filter (λ r, key r ≠ ident) rows)) = length rows.
Proof.
  induction rows as [|x rows IH]; intros Hnd (r & Hr & Hk); [inversion Hr|].
  rewrite fmap_cons in Hnd. apply NoDup_cons in Hnd as [Hx Hnd].
  destruct (decide (key x = ident)) as [E|Hne].
  - rewrite filter_cons_False by (intros H; apply H; exact E).
    rewrite filter_all_elem; [reflexivity|].
    intros y Hy Hky. apply Hx. rewrite E, <- Hky.
    apply list_elem_of_fmap_2. exact Hy.
  - rewrite filter_cons_True by exact Hne. cbn [length]. f_equal.
    apply IH; [exact Hnd|].
    apply elem_of_cons in Hr as [->|Hr]; [contradiction|eauto].
Qed.

(** X15. With unique ids, deleting the id of a question removes exactly one
    question: the questions left are the others, in their order, one less
    in number; the categories and the sequence of ids are untouched. *)
Theorem delete_question_removes_one (rand : nat → Z) (db : DB) (question_id : Z) :
  pending db = None →
  NoDup (Question.id <$> questions (committed db)) →
  question_exists (committed db) question_id →
  let db' := snd (serve rand (DELETE_question question_id) db) in
  S (length (questions (committed db'))) = length (questions (committed db)) ∧
  questions (committed db') `sublist_of` questions (committed db) ∧
  (∀ q, q ∈ questions (committed db) → Question.id q ≠ question_id →
        q ∈ questions (committed db')) ∧
  categories (committed db') = categories (committed db) ∧
  questions_id_seq db' = questions_id_seq db.
Proof.
  intros Hp Hnd Hex db'. subst db'.
  rewrite <- (session_view_clean db Hp) in *.
  rewrite delete_question_found by exact Hex.
  cbn [snd committed questions categories questions_id_seq].
  split; [|split; [|split; [|split]]]; try reflexivity.
  - apply filter_other_length; assumption.
  - apply sublist_filter.
  - intros q Hq Hne. apply list_elem_of_filter. auto.
Qed.

Lemma sample_ids_NoDup : NoDup (Question.id <$> sample_questions).
Proof.
  cbn. repeat (apply NoDup_cons; split;
               [intros H; apply list_elem_of_In in H; cbn in H;
                intuition discriminate|]).
  apply NoDup_nil. exact I.
Qed.

Lemma delete_question_removes_one_witness :
  length (questions (committed
            (snd (serve sample_rand (DELETE_question 15) sample_db)))) = 11%nat.
Proof.
  destruct (delete_question_removes_one sample_rand sample_db 15) as [H _].
  - reflexivity.
  - exact sample_ids_NoDup.
  - exists (Question.mk 15 "The Taj Mahal is located in which Indian city?"
              "Agra" 3 2). split; [is_row|reflexivity].
  - cbv zeta in H.
    change (length (questions (committed sample_db))) with 12%nat in H.
    lia.
Defined.

(** ** Extra properties: invariants of the store over requests *)

Lemma serve_categories (rand : nat → Z) (r : Request) (db : DB) :
  pending db = None →
  categories (committed (snd (serve rand r db))) = categories (committed db).
Proof.
  intros Hp.
  destruct (serve_effect rand r db)
    as [H|[(k & _ & _ & H)|(q & a & c & d & _ & _ & _ & H)]];
    rewrite H; cbn; rewrite ?(session_view_clean db Hp); reflexivity.
Qed.

(** X16. No request creates, changes or removes a category: after any
    sequence of requests the categories are those the store began with. *)
Theorem serve_all_categories (requests : list ((nat → Z) * Request)) (db : DB) :
  pending db = None →
  categories (committed (snd (serve_all requests db))) = categories (committed db).
Proof.
  revert db. induction requests as [|[rand r] rest IH]; intros db Hp;
    [reflexivity|].
  rewrite serve_all_cons, IH by apply serve_pending.
  apply serve_categories, Hp.
Qed.

Lemma serve_questions_valid (rand : nat → Z) (r : Request) (db : DB) :
  pending db = None ∧ questions_valid (committed db) →
  pending (snd (serve rand r db)) = None ∧
  questions_valid (committed (snd (serve rand r db))).
Proof.
  intros [Hp Hv]. split; [apply serve_pending|].
  destruct (serve_effect rand r db)
    as [H|[(k & _ & _ & H)|(question & answer & c & d & Hq & Ha & Hex & H)]];
    rewrite H; cbn [committed session_rollback];
    rewrite ?(session_view_clean db Hp) in *.
  - exact Hv.
  - intros q Hq. apply list_elem_of_filter in Hq as [_ Hq].
    destruct (Hv q Hq) as (H1 & H2 & H3). auto.
  - intros q Hq'. apply elem_of_app in Hq' as [Hq'|Hq'].
    + destruct (Hv q Hq') as (H1 & H2 & H3). auto.
    + apply list_elem_of_singleton in Hq'. subst q. cbn. auto.
Qed.

(** X17. The validity check of the creation handler is an invariant of the
    store.  If every question has a non-empty text and answer and a
    category that exists, this is still so after any sequence of
    requests. *)
Theorem serve_all_questions_valid (requests : list ((nat → Z) * Request))
    (db : DB) :
  pending db = None → questions_valid (committed db) →
  questions_valid (committed (snd (serve_all requests db))).
Proof.
  intros Hp Hv.
  apply (serve_all_invariant
           (λ db, pending db = None ∧ questions_valid (committed db))).
  - intros rand r db0. apply serve_questions_valid.
  - auto.
Qed.

Lemma serve_ids_fresh (rand : nat → Z) (r : Request) (db : DB) :
  pending db = None ∧ ids_fresh db →
  pending (snd (serve rand r db)) = None ∧ ids_fresh (snd (serve rand r db)).
Proof.
  intros [Hp [Hnd Hlt]]. split; [apply serve_pending|].
  destruct (serve_effect rand r db)
    as [H|[(k & _ & _ & H)|(question & answer & c & d & _ & _ & _ & H)]];
    rewrite H; unfold ids_fresh;
    cbn [committed questions questions_id_seq session_rollback];
    rewrite ?(session_view_clean db Hp) in *.
  - auto.
  - split.
    + eapply sublist_NoDup; [exact Hnd|].
      apply fmap_sublist, sublist_filter.
    + intros q Hq. apply list_elem_of_filter in Hq as [_ Hq]. auto.
  - split.
    + rewrite fmap_app. apply NoDup_app. split; [exact Hnd|]. split.
      * intros k Hk Hk'. apply list_elem_of_singleton in Hk'. cbn in Hk'.
        apply list_elem_of_fmap in Hk as (q & -> & Hq).
        specialize (Hlt q Hq). lia.
      * apply NoDup_singleton.
    + intros q Hq. apply elem_of_app in Hq as [Hq|Hq].
      * specialize (Hlt q Hq). lia.
      * apply list_elem_of_singleton in Hq. subst q. cbn. lia.
Qed.

(** X18. Ids stay unique.  If the ids of the questions are unique and below
    the next id of the sequence, this is still so after any sequence of
    requests, creations and deletions in any order. *)
Theorem serve_all_ids_fresh (requests : list ((nat → Z) * Request)) (db : DB) :
  pending db = None → ids_fresh db →
  ids_fresh (snd (serve_all requests db)).
Proof.
  intros Hp Hf.
  apply (serve_all_invariant (λ db, pending db = None ∧ ids_fresh db)).
  - intros rand r db0. apply serve_ids_fresh.
  - auto.
Qed.

Lemma sample_questions_valid : questions_valid (committed sample_db).
Proof.
  intros q Hq. cbn in Hq. in_rows Hq;
    (split; [discriminate|split; [discriminate|]]); cbn;
    first [ exists (Category.mk 1 "Science"); split; [is_row|reflexivity]
          | exists (Category.mk 2 "Art"); split; [is_row|reflexivity]
          | exists (Category.mk 3 "Geography"); split; [is_row|reflexivity] ].
Qed.

Lemma sample_ids_fresh : ids_fresh sample_db.
Proof.
  split; [exact sample_ids_NoDup|].
  intros q Hq. cbn in Hq. in_rows Hq; reflexivity.
Qed.

Lemma serve_all_categories_witness :
  categories (committed (snd (serve_all sample_requests sample_db))) =
    sample_categories.
Proof.
  apply (serve_all_categories sample_requests sample_db). reflexivity.
Defined.

Lemma serve_all_questions_valid_witness :
  questions_valid (committed (snd (serve_all sample_requests sample_db))) ∧
  length (questions (committed (snd (serve_all sample_requests sample_db))))
    = 13%nat.
Proof.
  split; [|reflexivity].
  apply (serve_all_questions_valid sample_requests sample_db);
    [reflexivity|exact sample_questions_valid].
Defined.

Lemma serve_all_ids_fresh_witness :
  ids_fresh (snd (serve_all sample_requests sample_db)) ∧
  questions_id_seq (snd (serve_all sample_requests sample_db)) = 25.
Proof.
  split; [|reflexivity].
  apply (serve_all_ids_fresh sample_requests sample_db);
    [reflexivity|exact sample_ids_fresh].
Defined.

Lemma serve_id_gone (ident : Z) (rand : nat → Z) (r : Request) (db : DB) :
  pending db = None ∧ ident < questions_id_seq db ∧
  ¬ question_exists (committed db) ident →
  pending (snd (serve rand r db)) = None ∧
  ident < questions_id_seq (snd (serve rand r db)) ∧
  ¬ question_exists (committed (snd (serve rand r db))) ident.
Proof.
  intros (Hp & Hlt & Hno). split; [apply serve_pending|].
  destruct (serve_effect rand r db)
    as [H|[(k & _ & _ & H)|(question & answer & c & d & _ & _ & _ & H)]];
    rewrite H; cbn [committed questions questions_id_seq session_rollback];
    rewrite ?(session_view_clean db Hp) in *.
  - auto.
  - split; [exact Hlt|]. intros (q & Hq & Hid). apply Hno.
    apply list_elem_of_filter in Hq as [_ Hq]. exists q. auto.
  - split; [lia|]. intros (q & Hq & Hid).
    apply elem_of_app in Hq as [Hq|Hq].
    + apply Hno. exists q. auto.
    + apply list_elem_of_singleton in Hq. subst q. cbn in Hid. lia.
Qed.

(** X19. An id is not given out twice.  An id below the next id of the
    sequence that no question has (the id of a deleted question, say) is
    the id of no question after any sequence of requests. *)
Theorem serve_all_id_gone (requests : list ((nat → Z) * Request)) (db : DB)
    (ident : Z) :
  pending db = None → ident < questions_id_seq db →
  ¬ question_exists (committed db) ident →
  ¬ question_exists (committed (snd (serve_all requests db))) ident.
Proof.
  intros Hp Hlt Hno.
  apply (serve_all_invariant
           (λ db, pending db = None ∧ ident < questions_id_seq db ∧
                  ¬ question_exists (committed db) ident)).
  - intros rand r db0. apply serve_id_gone.
  - auto.
Qed.

Lemma serve_all_id_gone_witness :
  ¬ question_exists (committed (snd (serve_all sample_requests sample_db))) 10 ∧
  ¬ question_exists
      (committed (snd (serve_all (tail sample_requests)
                         (snd (serve_all sample_requests sample_db))))) 9.
Proof.
  split.
  - apply (serve_all_id_gone sample_requests sample_db 10);
      [reflexivity|reflexivity|].
    intros (q & Hq & Hid). cbn in Hq. in_rows Hq; discriminate Hid.
  - apply (serve_all_id_gone (tail sample_requests)
             (snd (serve_all sample_requests sample_db)) 9);
      [reflexivity|reflexivity|].
    intros (q & Hq & Hid). vm_compute in Hq. in_rows Hq; discriminate Hid.
Defined.

(** X20. The quiz and the listing of a category agree: for a positive
    category id that is the id of a category, a question the quiz returns
    is one of the questions the listing of that category returns. *)
Theorem play_quiz_in_category_listing (rand rand' : nat → Z) (db : DB)
    (data : QuizData) (d : question_dict) :
  0 < quiz_category_id data →
  category_exists (session_view db) (quiz_category_id data) →
  json (fst (serve rand (POST_quizzes (Some data)) db)) = QuizBody true (Some d) →
  ∃ n qs current_category,
    serve rand' (GET_category_questions (quiz_category_id data)) db =
      ({| status := 200;
          json := CategoryQuestionsBody true n qs current_category |},
       session_rollback db) ∧
    d ∈ qs.
Proof.
  intros Hpos Hex Hquiz.
  rewrite play_quiz_run in Hquiz. cbn [fst json jsonify] in Hquiz.
  pose proof (limit_1_order_by_random rand
                (quiz_candidates data (questions (session_view db)))) as Hfirst.
  destruct (limit 1 _) as [|q l]; [discriminate|].
  injection Hquiz as <-.
  apply elem_of_quiz_candidates in Hfirst as [Hq [_ Hcat]].
  destruct (get_questions_by_category_run rand' db _ Hex) as (c & _ & _ & Hs).
  eexists _, _, _. split; [exact Hs|].
  apply list_elem_of_fmap_2, list_elem_of_filter. auto.
Qed.

Lemma play_quiz_in_category_listing_witness :
  ∃ n qs current_category,
    fst (serve sample_rand (GET_category_questions 1) sample_db) =
      jsonify (CategoryQuestionsBody true n qs current_category) ∧
    QuestionDict 21 "Who discovered penicillin?" "Alexander Fleming" 1 3 ∈ qs.
Proof.
  destruct (play_quiz_in_category_listing sample_rand sample_rand sample_db
              (mkQuizData 1 [20; 22])
              (QuestionDict 21 "Who discovered penicillin?" "Alexander Fleming"
                 1 3)) as (n & qs & c & Hs & Hin).
  - reflexivity.
  - exists (Category.mk 1 "Science"). split; [is_row|reflexivity].
  - vm_compute. reflexivity.
  - exists n, qs, c. cbn [quiz_category_id] in Hs. rewrite Hs.
    split; [reflexivity|exact Hin].
Defined.


